(** * Agent auth state store (auth_state.mjs): a shallow embedding

    The module persists one JSON record per agent handle and offers a remote
    check of an API key.  The embedding follows the source function by
    function.

    - JavaScript values are the plain-data fragment: what JSON text can
      denote, plus [undefined].  Objects are association lists read by key.
    - The text of a file is kept as what [JSON.parse] makes of it, a value or
      a failure; [JSON.stringify] followed by [JSON.parse] is [json_image].
    - The file system, the process environment, the clock and the calls made
      to the injected HTTP collaborator are the fields of an explicit [World],
      threaded through a state-and-exception monad.  Every file system call
      and every call of the collaborator is logged in the world.
    - The file system is a map from paths to what each call finds there.
      Directories are implicit; a path on which the calls fail (a directory,
      a path below a regular file, a name the system refuses) is bound to the
      [err.code] they fail with.  A write is not atomic: the world says at
      which paths a write fails after the file was opened, and what it
      leaves there.
    - [await] is sequential composition: the module never interleaves two of
      its own operations.
    - [path.join] and the home directory belong to the host and are
      parameters. *)

From stdpp Require Import base strings list gmap pretty.
From Stdlib Require Import ZArith Ascii String.

#[local] Set Warnings "-register-all".
Local Open Scope string_scope.
Local Open Scope list_scope.
Local Open Scope Z_scope.

(** ** JavaScript values *)

(** Strings are sequences of code units below 256.  Numbers are the integers
    (the module never computes with a number: it only tests truthiness and
    applies [String]); [String] is given in plain decimal, which is what the
    source prints for an integer of magnitude up to 2^53.  Beyond that the
    digits the source prints differ (rounding, then an exponent from 10^21),
    and nothing below depends on them.  Functions, symbols, BigInts and
    objects with accessors or a prototype of their own are outside the
    fragment. *)
Inductive JsVal : Type :=
| VUndef
| VNull
| VBool (b : bool)
| VNum (n : Z)
| VStr (s : string)
| VArr (xs : list JsVal)
| VObj (props : list (string * JsVal)).

(** ToBoolean *)
Definition truthy (v : JsVal) : bool :=
  match v with
  | VUndef | VNull => false
  | VBool b => b
  | VNum n => negb (n =? 0)
  | VStr EmptyString => false
  | VStr (String _ _) => true
  | VArr _ | VObj _ => true
  end.

(** [a || b] on values already evaluated *)
Definition js_or (a b : JsVal) : JsVal := if truthy a then a else b.

Inductive JsType := TUndefined | TObject | TBoolean | TNumber | TString.

Definition typeof (v : JsVal) : JsType :=
  match v with
  | VUndef => TUndefined
  | VNull | VArr _ | VObj _ => TObject
  | VBool _ => TBoolean
  | VNum _ => TNumber
  | VStr _ => TString
  end.

Definition is_object_type (v : JsVal) : bool :=
  match typeof v with TObject => true | _ => false end.

Fixpoint assoc (k : string) (ps : list (string * JsVal)) : option JsVal :=
  match ps with
  | [] => None
  | (k', v) :: ps' => if String.eqb k k' then Some v else assoc k ps'
  end.

(** [v.k] for a value that is neither [null] nor [undefined]; none of the
    names the module reads is a property of a primitive or of an array. *)
Definition get (v : JsVal) (k : string) : JsVal :=
  match v with
  | VObj ps => default VUndef (assoc k ps)
  | _ => VUndef
  end.

Definition has_own (k : string) (ps : list (string * JsVal)) : bool :=
  bool_decide (is_Some (assoc k ps)).

Fixpoint join_comma (parts : list string) : string :=
  match parts with
  | [] => ""
  | [p] => p
  | p :: rest => p +:+ "," +:+ join_comma rest
  end.

(** [String(v)].  [None] is the TypeError of OrdinaryToPrimitive: an object
    of plain data that has an own [toString] property has no callable
    [toString], and [Object.prototype.valueOf] gives back the object.
    Arrays go through [Array.prototype.join]. *)
Fixpoint js_String (v : JsVal) : option string :=
  match v with
  | VUndef => Some "undefined"
  | VNull => Some "null"
  | VBool true => Some "true"
  | VBool false => Some "false"
  | VNum n => Some (pretty n)
  | VStr s => Some s
  | VArr xs =>
      let fix elems (l : list JsVal) : option (list string) :=
        match l with
        | [] => Some []
        | x :: l' =>
            match (match x with
                   | VUndef | VNull => Some ""
                   | _ => js_String x
                   end), elems l' with
            | Some s, Some ss => Some (s :: ss)
            | _, _ => None
            end
        end in
      match elems xs with
      | Some ss => Some (join_comma ss)
      | None => None
      end
  | VObj ps => if has_own "toString" ps then None else Some "[object Object]"
  end.

(** ** String helpers of the source *)

(** WhiteSpace and LineTerminator code units below 256 *)
Definition is_ws (c : ascii) : bool :=
  let n := nat_of_ascii c in
  ((9 <=? n)%nat && (n <=? 13)%nat) || (n =? 32)%nat || (n =? 160)%nat.

Fixpoint trim_start (s : string) : string :=
  match s with
  | EmptyString => EmptyString
  | String c r => if is_ws c then trim_start r else s
  end.

Fixpoint trim_end (s : string) : string :=
  match s with
  | EmptyString => EmptyString
  | String c r =>
      match trim_end r with
      | EmptyString => if is_ws c then EmptyString else String c EmptyString
      | r' => String c r'
      end
  end.

(** [String.prototype.trim] *)
Definition trim (s : string) : string := trim_end (trim_start s).

Definition nonempty (s : string) : bool :=
  match s with EmptyString => false | String _ _ => true end.

(** [normalizeHandle] *)
Definition normalizeHandle (handle : JsVal) : string :=
  match handle with
  | VStr s => trim s
  | _ => ""
  end.

Definition sanitize_char (c : ascii) : ascii :=
  if (Ascii.eqb c "/" || Ascii.eqb c "\")%bool then "_"%char else c.

(** [sanitizeHandleForPath]: [handle.replace(/[\\/]/g, "_")] *)
Fixpoint sanitizeHandleForPath (handle : string) : string :=
  match handle with
  | EmptyString => EmptyString
  | String c r => String (sanitize_char c) (sanitizeHandleForPath r)
  end.

(** ** The world the module runs in *)

(** A file's text is kept as what [JSON.parse] makes of it: the value it
    denotes, or a text that does not parse. *)
Inductive FileText : Type :=
| JsonText (v : JsVal)
| BadText (raw : string).

(** What lives at a path: a regular file, or a node on which every file
    system call fails with the given [err.code] (a directory, a file without
    permission, a path below a regular file, which fails with ENOTDIR, ...).
    A path bound to nothing fails with ENOENT.  Directories are implicit. *)
Inductive Entry : Type :=
| File (t : FileText)
| Fault (code : string).

Inductive Event : Type :=
| FsRead (p : string)
| FsRename (src dst : string)
| FsUnlink (p : string)
| FsMkdir (p : string)
| FsWrite (p : string) (t : FileText)
| Request (req : JsVal).

(** [clock] is the sequence of readings the system clock will give,
    milliseconds since the epoch; [ticks] counts the readings taken.
    [env_dir] is [process.env.CONTEXTOVERFLOW_AUTH_STATE_DIR]; [log] records
    every file system call and every call of the collaborator, oldest
    first.  [write_faults] binds the paths at which [fs.writeFile] fails
    although the path is no [Fault] node: the [err.code], and the text the
    file holds afterwards (what was left of the text being written when the
    write was cut short, on a full disk say; the empty text at the least,
    since the file is truncated when it is opened). *)
Record World : Type := mkWorld {
  files : gmap string Entry;
  env_dir : option string;
  clock : nat → Z;
  ticks : nat;
  log : list Event;
  write_faults : gmap string (string * FileText)
}.

Inductive Exn : Type :=
| JsError (msg : string)       (* new Error(msg) *)
| TypeError
| SyntaxError
| FsError (code : string)      (* a rejected fs call, with its err.code *)
| Thrown (v : JsVal).          (* whatever the collaborator throws *)

Inductive Result (A : Type) : Type :=
| Ok (a : A)
| Throw (e : Exn).
Arguments Ok {A} a.
Arguments Throw {A} e.

Definition M (A : Type) : Type := World → Result A * World.

Definition ret {A} (a : A) : M A := λ w, (Ok a, w).
Definition throw {A} (e : Exn) : M A := λ w, (Throw e, w).
Definition bind {A B} (m : M A) (k : A → M B) : M B :=
  λ w, match m w with
       | (Ok a, w') => k a w'
       | (Throw e, w') => (Throw e, w')
       end.
(** [try { m } catch (err) { h err }] *)
Definition try_catch {A} (m : M A) (h : Exn → M A) : M A :=
  λ w, match m w with
       | (Ok a, w') => (Ok a, w')
       | (Throw e, w') => h e w'
       end.

Notation "'do' x <- m ; k" := (bind m (λ x, k))
  (at level 10, x name, m at level 100, k at level 200, only parsing).
Notation "'run' m ; k" := (bind m (λ _, k))
  (at level 10, m at level 100, k at level 200, only parsing).

Definition add_log (e : Event) (w : World) : World :=
  mkWorld (files w) (env_dir w) (clock w) (ticks w) (log w ++ [e])
    (write_faults w).

Definition put_files (f : gmap string Entry) (w : World) : World :=
  mkWorld f (env_dir w) (clock w) (ticks w) (log w) (write_faults w).

Definition tick (w : World) : World :=
  mkWorld (files w) (env_dir w) (clock w) (S (ticks w)) (log w)
    (write_faults w).

Definition emit (e : Event) : M unit := λ w, (Ok tt, add_log e w).

Definition set_files (f : gmap string Entry) : M unit :=
  λ w, (Ok tt, put_files f w).

Definition get_files : M (gmap string Entry) := λ w, (Ok (files w), w).

(** One reading of the system clock *)
Definition read_clock : M Z := λ w, (Ok (clock w (ticks w)), tick w).

(** [process.env.CONTEXTOVERFLOW_AUTH_STATE_DIR] *)
Definition read_env : M (option string) := λ w, (Ok (env_dir w), w).

(** Whether a write at [p] fails once the file is open, and how *)
Definition write_fault (p : string) : M (option (string * FileText)) :=
  λ w, (Ok (write_faults w !! p), w).

(** *** node:fs/promises *)

Definition fs_readFile (p : string) : M FileText :=
  run emit (FsRead p) ;
  do fs <- get_files ;
  match fs !! p with
  | None => throw (FsError "ENOENT")
  | Some (Fault c) => throw (FsError c)
  | Some (File t) => ret t
  end.

Definition fs_rename (src dst : string) : M unit :=
  run emit (FsRename src dst) ;
  do fs <- get_files ;
  match fs !! src with
  | None => throw (FsError "ENOENT")
  | Some (Fault c) => throw (FsError c)
  | Some (File t) =>
      match fs !! dst with
      | Some (Fault c) => throw (FsError c)
      | _ => set_files (<[dst := File t]> (delete src fs))
      end
  end.

Definition fs_unlink (p : string) : M unit :=
  run emit (FsUnlink p) ;
  do fs <- get_files ;
  match fs !! p with
  | None => throw (FsError "ENOENT")
  | Some (Fault c) => throw (FsError c)
  | Some (File _) => set_files (delete p fs)
  end.

(** [fs.mkdir(dir, { recursive: true })]: an existing directory is fine, a
    regular file in the way is not.  A directory that cannot be created for
    another reason (a regular file higher up, a parent without permission)
    is a [Fault] node. *)
Definition fs_mkdir (dir : string) : M unit :=
  run emit (FsMkdir dir) ;
  do fs <- get_files ;
  match fs !! dir with
  | Some (Fault c) => throw (FsError c)
  | Some (File _) => throw (FsError "EEXIST")
  | None => ret tt
  end.

(** [fs.writeFile(p, t, "utf8")], flag [w]: the file is created or
    truncated when it is opened, then written.  On a [Fault] node the open
    fails and nothing changes; at a path of [write_faults] the call fails
    later and the file is left with the text recorded there. *)
Definition fs_writeFile (p : string) (t : FileText) : M unit :=
  run emit (FsWrite p t) ;
  do fs <- get_files ;
  match fs !! p with
  | Some (Fault c) => throw (FsError c)
  | _ =>
      do cut <- write_fault p ;
      match cut with
      | Some (c, rest) =>
          run set_files (<[p := File rest]> fs) ;
          throw (FsError c)
      | None => set_files (<[p := File t]> fs)
      end
  end.

(** *** JSON *)

Definition JSON_parse (t : FileText) : M JsVal :=
  match t with
  | JsonText v => ret v
  | BadText _ => throw SyntaxError
  end.

(** What [JSON.parse] reads back from [JSON.stringify v]: a property whose
    value is [undefined] is left out, an [undefined] array element is
    written as [null]. *)
Fixpoint json_image (v : JsVal) : JsVal :=
  match v with
  | VArr xs =>
      VArr ((fix go (l : list JsVal) : list JsVal :=
               match l with
               | [] => []
               | x :: l' => json_image x :: go l'
               end) xs)
  | VObj ps =>
      VObj ((fix go (l : list (string * JsVal)) : list (string * JsVal) :=
               match l with
               | [] => []
               | (k, VUndef) :: l' => go l'
               | (k, x) :: l' => (k, json_image x) :: go l'
               end) ps)
  | VUndef => VNull
  | _ => v
  end.

(** [`${JSON.stringify(v, null, 2)}\n`]: indentation and the final newline
    are insignificant white space of the text. *)
Definition JSON_stringify_nl (v : JsVal) : FileText := JsonText (json_image v).

(** *** Date *)

Definition pad (width : nat) (n : Z) : string :=
  let s := pretty (Z.abs n) in
  String.string_of_list_ascii
    (replicate (width - String.length s) "0"%char) +:+ s.

(** Year, month and day of a count of days since 1970-01-01 *)
Definition civil_of_days (days : Z) : Z * Z * Z :=
  let z := days + 719468 in
  let era := z / 146097 in
  let doe := z - era * 146097 in
  let yoe := (doe - doe / 1460 + doe / 36524 - doe / 146096) / 365 in
  let doy := doe - (365 * yoe + yoe / 4 - yoe / 100) in
  let mp := (5 * doy + 2) / 153 in
  let d := doy - (153 * mp + 2) / 5 + 1 in
  let m := if mp <? 10 then mp + 3 else mp - 9 in
  let y := yoe + era * 400 + (if m <=? 2 then 1 else 0) in
  (y, m, d).

(** [new Date(t).toISOString()] *)
Definition toISOString (t : Z) : string :=
  let '(y, m, d) := civil_of_days (t / 86400000) in
  let r := t mod 86400000 in
  let year :=
    if (0 <=? y) && (y <=? 9999) then pad 4 y
    else (if y <? 0 then "-" else "+") +:+ pad 6 y in
  year +:+ "-" +:+ pad 2 m +:+ "-" +:+ pad 2 d +:+ "T"
    +:+ pad 2 (r / 3600000) +:+ ":" +:+ pad 2 (r / 60000 mod 60) +:+ ":"
    +:+ pad 2 (r / 1000 mod 60) +:+ "." +:+ pad 3 (r mod 1000) +:+ "Z".

Arguments toISOString : simpl never.

(** [nowIso] *)
Definition nowIso : M string := do t <- read_clock ; ret (toISOString t).

(** [Date.now()] *)
Definition Date_now : M Z := read_clock.

(** ** The module *)

(** What the module takes from the platform: [path.join] of node:path and
    [os.homedir()], read once when the module is loaded. *)
Record Host : Type := mkHost {
  path_join : list string → string;
  homedir : string
}.

(** The [options] argument of the public operations *)
Record Options : Type := mkOptions {
  stateDir : JsVal;
  legacyStateDirs : JsVal
}.

(** [options = {}] *)
Definition no_options : Options := mkOptions VUndef VUndef.

(** The [requestJSON] argument: some value that is not a function, or a
    function from the request object to what it resolves to or throws. *)
Inductive Callee : Type :=
| NotFunction (v : JsVal)
| Function (f : JsVal → Result JsVal).

Record KeyCheck : Type := mkKeyCheck {
  apiKey : JsVal;
  requestJSON : Callee;
  baseUrl : JsVal;
  timeoutMs : JsVal;
  path : JsVal
}.

Definition exn_code (e : Exn) : option string :=
  match e with
  | FsError c => Some c
  | Thrown v => match get v "code" with VStr c => Some c | _ => None end
  | _ => None
  end.

Definition is_ENOENT (e : Exn) : bool :=
  match exn_code e with
  | Some c => String.eqb c "ENOENT"
  | None => false
  end.

(** [{ ...obj, k: v }] for one more key: the value of an existing key is
    replaced in place, a new key goes last. *)
Fixpoint set_prop (ps : list (string * JsVal)) (k : string) (v : JsVal)
  : list (string * JsVal) :=
  match ps with
  | [] => [(k, v)]
  | (k', v') :: ps' =>
      if String.eqb k k' then (k, v) :: ps' else (k', v') :: set_prop ps' k v
  end.

(** The own properties a spread copies *)
Definition spread (v : JsVal) : list (string * JsVal) :=
  match v with
  | VObj ps => ps
  | _ => []
  end.

Section AuthState.

Variable host : Host.

Definition DEFAULT_AUTH_STATE_DIR : string :=
  path_join host [homedir host; ".openclaw"; "contextoverflow"; "auth"].

Definition normalizeStateDir (stateDir : JsVal) : M string :=
  let from_env : M string :=
    do envOverride <- read_env ;
    match envOverride with
    | Some e => if nonempty e then ret (trim e) else ret DEFAULT_AUTH_STATE_DIR
    | None => ret DEFAULT_AUTH_STATE_DIR
    end in
  match stateDir with
  | VStr s => if nonempty (trim s) then ret (trim s) else from_env
  | _ => from_env
  end.

Definition stateFilePath (stateDir handle : string) : string :=
  let safeHandle := sanitizeHandleForPath handle in
  path_join host [stateDir; safeHandle +:+ ".json"].

(** [a || nowIso()]: the clock is read only when [a] is falsy *)
Definition or_nowIso (a : JsVal) : M JsVal :=
  if truthy a then ret a else do t <- nowIso ; ret (VStr t).

Definition normalizeState (raw : JsVal) (fallbackHandle : string) : M JsVal :=
  if negb (truthy raw) || negb (is_object_type raw) then ret VNull
  else
    match js_String (js_or (js_or (get raw "handle") (VStr fallbackHandle)) (VStr "")) with
    | None => throw TypeError
    | Some str =>
        let handle := trim str in
        if negb (nonempty handle) then ret VNull
        else
          do updatedAt <- or_nowIso (js_or (get raw "updatedAt") (get raw "updated_at")) ;
          ret (VObj [
            ("handle", VStr handle);
            ("apiKey", js_or (js_or (get raw "apiKey") (get raw "api_key")) (VStr ""));
            ("publicKeyPem", js_or (js_or (get raw "publicKeyPem") (get raw "public_key_pem")) (VStr ""));
            ("privateKeyPem", js_or (js_or (get raw "privateKeyPem") (get raw "private_key_pem")) (VStr ""));
            ("publicKeyJwk", js_or (js_or (get raw "publicKeyJwk") (get raw "public_jwk")) VNull);
            ("privateKeyJwk", js_or (js_or (get raw "privateKeyJwk") (get raw "private_jwk")) VNull);
            ("lastProvider", js_or (js_or (js_or (get raw "lastProvider") (get raw "last_provider")) (get raw "provider")) (VStr "ed25519"));
            ("updatedAt", updatedAt);
            ("baseUrl", js_or (js_or (get raw "baseUrl") (get raw "base_url")) (VStr ""));
            ("verificationProvider", js_or (js_or (get raw "verificationProvider") (get raw "verification_provider")) (VStr ""))
          ])
    end.

Definition backupPath (filePath : string) (now : Z) : string :=
  filePath +:+ ".corrupt-" +:+ pretty now.

Arguments backupPath : simpl never.

Definition backupCorruptState (filePath : string) : M unit :=
  do now <- Date_now ;
  try_catch (fs_rename filePath (backupPath filePath now)) (λ _, ret tt).

(** The loop of [stateReadCandidates] *)
Fixpoint push_legacy (handle : string) (paths : list string)
    (legacyStateDirs : list JsVal) : list string :=
  match legacyStateDirs with
  | [] => paths
  | legacy :: rest =>
      match legacy with
      | VStr dir =>
          if negb (truthy legacy) then push_legacy handle paths rest
          else push_legacy handle (paths ++ [stateFilePath dir handle]) rest
      | _ => push_legacy handle paths rest
      end
  end.

Definition stateReadCandidates (stateDir handle : string)
    (legacyStateDirs : JsVal) : list string :=
  let paths := [stateFilePath stateDir handle] in
  match legacyStateDirs with
  | VArr dirs => push_legacy handle paths dirs
  | _ => paths
  end.

Definition safeReadState (filePath fallbackHandle : string) : M JsVal :=
  do rawText <-
    try_catch (do t <- fs_readFile filePath ; ret (Some t))
      (λ err, if is_ENOENT err then ret None else throw err) ;
  match rawText with
  | None => ret VNull
  | Some text =>
      try_catch (do raw <- JSON_parse text ; normalizeState raw fallbackHandle)
        (λ _, run backupCorruptState filePath ; ret VNull)
  end.

Definition getAuthStateFilePath (handle : JsVal) (options : Options) : M string :=
  let normalizedHandle := normalizeHandle handle in
  if negb (nonempty normalizedHandle) then throw (JsError "handle is required")
  else
    do dir <- normalizeStateDir (stateDir options) ;
    ret (stateFilePath dir normalizedHandle).

(** The [for] loop of [loadAgentAuthState] *)
Fixpoint load_loop (candidates : list string) (normalizedHandle : string)
  : M JsVal :=
  match candidates with
  | [] => ret VNull
  | candidate :: rest =>
      do state <- safeReadState candidate normalizedHandle ;
      if truthy state then ret state else load_loop rest normalizedHandle
  end.

Definition loadAgentAuthState (handle : JsVal) (options : Options) : M JsVal :=
  let normalizedHandle := normalizeHandle handle in
  if negb (nonempty normalizedHandle) then ret VNull
  else
    do dir <- normalizeStateDir (stateDir options) ;
    let candidates :=
      stateReadCandidates dir normalizedHandle
        (js_or (legacyStateDirs options) (VArr [])) in
    load_loop candidates normalizedHandle.

Definition saveAgentAuthState (handle state : JsVal) (options : Options)
  : M unit :=
  let normalizedHandle := normalizeHandle handle in
  if negb (nonempty normalizedHandle) then throw (JsError "handle is required")
  else
    do normalized <- normalizeState state normalizedHandle ;
    do now <- nowIso ;
    let normalizedState :=
      VObj (set_prop
              (set_prop (spread (js_or normalized (VObj [])))
                 "handle" (VStr normalizedHandle))
              "updatedAt" (VStr now)) in
    do dir <- normalizeStateDir (stateDir options) ;
    run fs_mkdir dir ;
    let filePath := stateFilePath dir normalizedHandle in
    fs_writeFile filePath (JSON_stringify_nl normalizedState).

(** The [for] loop of [clearAgentAuthState] *)
Fixpoint clear_loop (candidates : list string) (deleted : bool) : M bool :=
  match candidates with
  | [] => ret deleted
  | candidate :: rest =>
      do deleted' <-
        try_catch (run fs_unlink candidate ; ret true)
          (λ err, if negb (is_ENOENT err) then throw err else ret deleted) ;
      clear_loop rest deleted'
  end.

Definition clearAgentAuthState (handle : JsVal) (options : Options) : M bool :=
  let normalizedHandle := normalizeHandle handle in
  if negb (nonempty normalizedHandle) then ret false
  else
    do dir <- normalizeStateDir (stateDir options) ;
    let candidates :=
      stateReadCandidates dir normalizedHandle
        (js_or (legacyStateDirs options) (VArr [])) in
    clear_loop candidates false.

End AuthState.

Definition is_function (c : Callee) : bool :=
  match c with
  | Function _ => true
  | NotFunction _ => false
  end.

(** A call [c(arg)]: of a function, logged, then resolved or thrown; of
    anything else, a TypeError *)
Definition call (c : Callee) (arg : JsVal) : M JsVal :=
  match c with
  | NotFunction _ => throw TypeError
  | Function f =>
      run emit (Request arg) ;
      match f arg with
      | Ok out => ret out
      | Throw e => throw e
      end
  end.

Definition hasValidApiKey (params : KeyCheck) : M bool :=
  if negb (truthy (apiKey params)) || negb (is_function (requestJSON params))
  then ret false
  else
    try_catch
      (do out <- call (requestJSON params) (VObj [
            ("baseUrl", baseUrl params);
            ("method", VStr "GET");
            ("path", match path params with VUndef => VStr "/me" | p => p end);
            ("apiKey", apiKey params);
            ("timeoutMs", timeoutMs params)]) ;
       if negb (truthy out) || negb (truthy (get out "ok")) then ret false
       else
         let payload := get out "response" in
         if negb (truthy payload) || negb (is_object_type payload)
            || truthy (get payload "error")
         then ret false
         else ret (truthy (get payload "data")))
      (λ _, ret false).

(** ** Vocabulary of the specification *)

(** The ten fields of a normalized AuthState, in the order the record is
    built *)
Definition field_names : list string :=
  ["handle"; "apiKey"; "publicKeyPem"; "privateKeyPem"; "publicKeyJwk";
   "privateKeyJwk"; "lastProvider"; "updatedAt"; "baseUrl";
   "verificationProvider"].

(** Each canonical field that has legacy aliases, with them *)
Definition alias_table : list (string * list string) :=
  [("apiKey", ["api_key"]);
   ("publicKeyPem", ["public_key_pem"]);
   ("privateKeyPem", ["private_key_pem"]);
   ("publicKeyJwk", ["public_jwk"]);
   ("privateKeyJwk", ["private_jwk"]);
   ("lastProvider", ["last_provider"; "provider"]);
   ("updatedAt", ["updated_at"]);
   ("baseUrl", ["base_url"]);
   ("verificationProvider", ["verification_provider"])].

Fixpoint first_truthy (vs : list JsVal) : option JsVal :=
  match vs with
  | [] => None
  | v :: vs' => if truthy v then Some v else first_truthy vs'
  end.

(** The value holds no [undefined]: it is what some JSON text denotes *)
Fixpoint is_json (v : JsVal) : bool :=
  match v with
  | VUndef => false
  | VArr xs =>
      (fix all (l : list JsVal) : bool :=
         match l with
         | [] => true
         | x :: l' => is_json x && all l'
         end) xs
  | VObj ps =>
      (fix all (l : list (string * JsVal)) : bool :=
         match l with
         | [] => true
         | (_, x) :: l' => is_json x && all l'
         end) ps
  | _ => true
  end.

Definition is_string (v : JsVal) : bool :=
  match v with VStr _ => true | _ => false end.

Definition is_filled_string (v : JsVal) : bool :=
  match v with VStr s => nonempty s | _ => false end.

(** Structured key material: absent, or a mapping of JSON values *)
Definition is_jwk (v : JsVal) : bool :=
  match v with
  | VNull => true
  | VObj _ => is_json v
  | _ => false
  end.

(** A valid state, after the data model: a record of exactly the ten
    fields; a handle that is not blank; strings for the key, the PEMs, the
    base URL and the verification provider; key material or [null] for the
    JWKs; a provider name and a timestamp. *)
Definition valid_state (s : JsVal) : bool :=
  match s with
  | VObj ps =>
      forallb (λ kv, bool_decide (kv.1 ∈ field_names)) ps
      && match get s "handle" with VStr h => nonempty (trim h) | _ => false end
      && is_string (get s "apiKey")
      && is_string (get s "publicKeyPem")
      && is_string (get s "privateKeyPem")
      && is_jwk (get s "publicKeyJwk")
      && is_jwk (get s "privateKeyJwk")
      && is_filled_string (get s "lastProvider")
      && is_filled_string (get s "updatedAt")
      && is_string (get s "baseUrl")
      && is_string (get s "verificationProvider")
  | _ => false
  end.

(** A record with the ten fields, each one present, under a handle that is
    not empty *)
Definition well_formed (st : JsVal) : Prop :=
  (∃ ps, st = VObj ps ∧ map fst ps = field_names)
  ∧ (∃ h, get st "handle" = VStr h ∧ h ≠ "" ∧ trim h = h)
  ∧ ∀ k, k ∈ field_names → get st k ≠ VUndef.

(** The record [normalizeState] builds for a handle and a timestamp *)
Definition normalized_record (raw : JsVal) (handle : string)
    (updatedAt : JsVal) : JsVal :=
  VObj [
    ("handle", VStr handle);
    ("apiKey", js_or (js_or (get raw "apiKey") (get raw "api_key")) (VStr ""));
    ("publicKeyPem", js_or (js_or (get raw "publicKeyPem") (get raw "public_key_pem")) (VStr ""));
    ("privateKeyPem", js_or (js_or (get raw "privateKeyPem") (get raw "private_key_pem")) (VStr ""));
    ("publicKeyJwk", js_or (js_or (get raw "publicKeyJwk") (get raw "public_jwk")) VNull);
    ("privateKeyJwk", js_or (js_or (get raw "privateKeyJwk") (get raw "private_jwk")) VNull);
    ("lastProvider", js_or (js_or (js_or (get raw "lastProvider") (get raw "last_provider")) (get raw "provider")) (VStr "ed25519"));
    ("updatedAt", updatedAt);
    ("baseUrl", js_or (js_or (get raw "baseUrl") (get raw "base_url")) (VStr ""));
    ("verificationProvider", js_or (js_or (get raw "verificationProvider") (get raw "verification_provider")) (VStr ""))
  ].

(** What a field holds when the data is missing; [updatedAt] has no fixed
    default, it takes the current time *)
Definition field_defaults : list (string * JsVal) :=
  [("apiKey", VStr ""); ("publicKeyPem", VStr ""); ("privateKeyPem", VStr "");
   ("publicKeyJwk", VNull); ("privateKeyJwk", VNull);
   ("lastProvider", VStr "ed25519"); ("baseUrl", VStr "");
   ("verificationProvider", VStr "")].

(** The handle [normalizeState] derives, when [String] does not throw *)
Definition derived_handle (raw : JsVal) (fallbackHandle : string)
  : option string :=
  trim <$> js_String (js_or (js_or (get raw "handle") (VStr fallbackHandle)) (VStr "")).

(** The world after [backupCorruptState]: one reading of the clock, one
    rename, whose failure changes nothing *)
Definition quarantined (p : string) (w : World) : World :=
  let bp := backupPath p (clock w (ticks w)) in
  let w1 := add_log (FsRename p bp) (tick w) in
  match files w !! p, files w !! bp with
  | Some (File _), Some (Fault _) => w1
  | Some (File t), _ => put_files (<[bp := File t]> (delete p (files w))) w1
  | _, _ => w1
  end.

(** The properties [JSON.stringify] writes for an object *)
Definition json_props (ps : list (string * JsVal)) : list (string * JsVal) :=
  flat_map (λ kv, match kv.2 with
                  | VUndef => []
                  | x => [(kv.1, json_image x)]
                  end) ps.

(** The legacy directories a read consults: the entries that are strings
    and not empty, in the order supplied *)
Definition usable_dirs (dirs : list JsVal) : list string :=
  omap (λ v, match v with
             | VStr d => if nonempty d then Some d else None
             | _ => None
             end) dirs.

(** The record of a valid state under a handle and a timestamp *)
Definition canonical (s : JsVal) (handle : string) (updatedAt : JsVal) : JsVal :=
  VObj [
    ("handle", VStr handle);
    ("apiKey", get s "apiKey");
    ("publicKeyPem", get s "publicKeyPem");
    ("privateKeyPem", get s "privateKeyPem");
    ("publicKeyJwk", get s "publicKeyJwk");
    ("privateKeyJwk", get s "privateKeyJwk");
    ("lastProvider", get s "lastProvider");
    ("updatedAt", updatedAt);
    ("baseUrl", get s "baseUrl");
    ("verificationProvider", get s "verificationProvider")
  ].

(** The host's [path.join] keeps the file name, which is a single segment,
    at the end of the path: every state file path ends in [.json] *)
Definition json_paths (host : Host) : Prop :=
  ∀ dir handle, ∃ pre, stateFilePath host dir handle = pre +:+ ".json".

Fixpoint last_char (s : string) : option ascii :=
  match s with
  | EmptyString => None
  | String c EmptyString => Some c
  | String _ r => last_char r
  end.

(** The directory [normalizeStateDir] resolves to in a world *)
Definition resolved_dir (host : Host) (dir : JsVal) (w : World) : string :=
  match normalizeStateDir host dir w with
  | (Ok d, _) => d
  | (Throw _, _) => ""
  end.

(** Whether a parsed file content normalizes to a state under a fallback
    handle (the clock plays no part in that) *)
Definition yields_state (fallbackHandle : string) (raw : JsVal) : bool :=
  match normalizeState raw fallbackHandle (mkWorld ∅ None (λ _, 0) 0 [] ∅) with
  | (Ok st, _) => truthy st
  | (Throw _, _) => false
  end.

(** A candidate from which a read finds nothing: no file, a text that does
    not parse, or a content that does not normalize to a state *)
Definition no_state (fallbackHandle : string) (e : option Entry) : bool :=
  match e with
  | None => true
  | Some (Fault c) => String.eqb c "ENOENT"
  | Some (File (BadText _)) => true
  | Some (File (JsonText raw)) => negb (yields_state fallbackHandle raw)
  end.

(** A path on which a file system call fails with something else than
    ENOENT *)
Definition hard_fault (e : option Entry) : bool :=
  match e with
  | Some (Fault c) => negb (String.eqb c "ENOENT")
  | _ => false
  end.

Definition is_file (e : option Entry) : bool :=
  match e with
  | Some (File _) => true
  | _ => false
  end.

(** The request [hasValidApiKey] sends *)
Definition key_request (params : KeyCheck) : JsVal :=
  VObj [("baseUrl", baseUrl params);
        ("method", VStr "GET");
        ("path", match path params with VUndef => VStr "/me" | p => p end);
        ("apiKey", apiKey params);
        ("timeoutMs", timeoutMs params)].

(** The collaborator reports success with a well-formed object payload
    that has no error and a truthy data field *)
Definition reports_valid_key (r : Result JsVal) : bool :=
  match r with
  | Throw _ => false
  | Ok out =>
      truthy out && truthy (get out "ok")
      && truthy (get out "response") && is_object_type (get out "response")
      && negb (truthy (get (get out "response") "error"))
      && truthy (get (get out "response") "data")
  end.

(** ** A sample host and sample worlds, for the runs below *)

Fixpoint join_slash (parts : list string) : string :=
  match parts with
  | [] => "."
  | [p] => p
  | p :: rest => p +:+ "/" +:+ join_slash rest
  end.

(** A POSIX host; its [path.join] is exact on segments that need no
    normalisation, which is all the sample runs use. *)
Definition posix : Host := mkHost join_slash "/home/agent".

Definition clock0 : nat → Z := λ n,
  match n with
  | O => 1700000000000
  | S O => 1700000000250
  | S (S _) => 1700000000500
  end.

Definition world0 (fs : gmap string Entry) : World :=
  mkWorld fs None clock0 0 [] ∅.

Definition opts_d : Options := mkOptions (VStr "/d") VUndef.

(** A raw record with a canonical name and its alias both present, the
    canonical value empty *)
Definition raw_both_names : JsVal :=
  VObj [("handle", VStr "bob"); ("apiKey", VStr ""); ("api_key", VStr "legacy")].

(** What [raw_both_names] normalizes to at the first reading of [clock0] *)
Definition st_both_names : JsVal :=
  VObj [("handle", VStr "bob"); ("apiKey", VStr "legacy");
        ("publicKeyPem", VStr ""); ("privateKeyPem", VStr "");
        ("publicKeyJwk", VNull); ("privateKeyJwk", VNull);
        ("lastProvider", VStr "ed25519");
        ("updatedAt", VStr "2023-11-14T22:13:20.000Z");
        ("baseUrl", VStr ""); ("verificationProvider", VStr "")].


(** A raw record with both names, the canonical value filled *)
Definition raw_new_old : JsVal :=
  VObj [("handle", VStr "bob"); ("apiKey", VStr "new"); ("api_key", VStr "old")].

(** A stored record whose handle is blank *)
Definition raw_blank_handle : JsVal := VObj [("handle", VStr "  ")].

(** A stored record under another handle *)
Definition raw_other_handle : JsVal :=
  VObj [("handle", VStr " alice "); ("api_key", VStr "k1")].

Definition world_blank_handle : World :=
  world0 {[ "/d/bob.json" := File (JsonText raw_blank_handle) ]}.

Definition world_other_handle : World :=
  world0 {[ "/d/bob.json" := File (JsonText raw_other_handle) ]}.

Definition world_corrupt : World :=
  world0 {[ "/d/bob.json" := File (BadText "{oops") ]}.

Definition opts_legacy : Options :=
  mkOptions (VStr "/d") (VArr [VStr "/a"; VNum 3; VStr "/b"]).

(** Nothing in the primary directory, nothing in [/a], a record in [/b] *)
Definition world_legacy : World :=
  world0 {[ "/b/bob.json" := File (JsonText raw_other_handle) ]}.

(** A state as a caller holds it *)
Definition state_bob : JsVal :=
  VObj [("handle", VStr "bob"); ("apiKey", VStr "sk-1");
        ("publicKeyPem", VStr "PUB"); ("privateKeyPem", VStr "");
        ("publicKeyJwk", VObj [("kty", VStr "OKP"); ("x", VArr [VNum 1; VNull])]);
        ("privateKeyJwk", VNull);
        ("lastProvider", VStr "ed25519");
        ("updatedAt", VStr "2020-01-01T00:00:00.000Z");
        ("baseUrl", VStr "https://example.test");
        ("verificationProvider", VStr "")].

(** A file in [/a], a node without permission in [/b] *)
Definition world_clear : World :=
  world0 {[ "/a/bob.json" := File (JsonText (VObj []));
            "/b/bob.json" := Fault "EACCES" ]}.

Definition opts_a : Options := mkOptions (VStr "/d") (VArr [VStr "/a"]).
Definition opts_ab : Options :=
  mkOptions (VStr "/d") (VArr [VStr "/a"; VStr "/b"; VStr "/c"]).

(** A key check whose collaborator accepts the key, and one whose
    collaborator throws *)
Definition key_ok : KeyCheck :=
  mkKeyCheck (VStr "sk-1")
    (Function (λ _, Ok (VObj [("ok", VBool true);
                              ("response", VObj [("data", VObj [("id", VNum 1)])])])))
    (VStr "https://example.test") (VNum 5000) VUndef.

Definition key_throws : KeyCheck :=
  mkKeyCheck (VStr "sk-1") (Function (λ _, Throw (Thrown (VStr "timeout"))))
    (VStr "https://example.test") (VNum 5000) VUndef.

(** A state directory that cannot be created *)
Definition world_no_mkdir : World := world0 {[ "/d" := Fault "EACCES" ]}.

(** A record in place, on a disk that is full: a write of the state file is
    cut short and leaves it empty *)
Definition world_disk_full : World :=
  mkWorld {[ "/d/bob.json" := File (JsonText state_bob) ]} None clock0 0 []
    {[ "/d/bob.json" := ("ENOSPC", BadText "") ]}.

(** A state whose handle is blank *)
Definition state_blank : JsVal :=
  VObj [("handle", VStr "  "); ("apiKey", VStr "sk-9")].

(** A stored record whose handle has a [toString] of its own *)
Definition raw_handle_object : JsVal :=
  VObj [("handle", VObj [("toString", VNum 1)]); ("apiKey", VStr "k")].


(** A record in [/a], behind a primary path that cannot be read *)
Definition world_unreadable : World :=
  world0 {[ "/d/bob.json" := Fault "EACCES";
            "/a/bob.json" := File (JsonText raw_other_handle) ]}.

(** The record a save writes for a state, under a handle and a timestamp *)
Definition written_record (state : JsVal) (handle : string) (ts : JsVal)
  : JsVal :=
  if yields_state handle state
  then json_image (normalized_record state handle ts)
  else VObj [("handle", VStr handle); ("updatedAt", ts)].

(** A candidate whose read neither throws nor renames anything: no file, a
    node failing with ENOENT, or a content that parses and normalizes
    without a TypeError.  A text that does not parse and a node failing
    with another code are not quiet. *)
Definition quiet (fallbackHandle : string) (e : option Entry) : bool :=
  match e with
  | None => true
  | Some (Fault c) => String.eqb c "ENOENT"
  | Some (File (BadText _)) => false
  | Some (File (JsonText raw)) =>
      negb (truthy raw && is_object_type raw)
      || bool_decide (is_Some (derived_handle raw fallbackHandle))
  end.

(** The candidates a load reads when none of them makes it throw: each in
    turn, up to and including the first from which a read finds a state *)
Fixpoint read_until (fallbackHandle : string) (fs : gmap string Entry)
    (candidates : list string) : list string :=
  match candidates with
  | [] => []
  | c :: rest =>
      c :: (if no_state fallbackHandle (fs !! c)
            then read_until fallbackHandle fs rest
            else [])
  end.

(** A record in [/a] and another in [/b] *)
Definition world_two_records : World :=
  world0 {[ "/a/bob.json" := File (JsonText raw_other_handle);
            "/b/bob.json" := File (JsonText state_bob) ]}.

(** ** Tactics *)

(** Unfold the monad and compute *)
Ltac run_monad :=
  unfold bind, ret, throw, try_catch, emit, set_files, get_files, read_env,
    write_fault, read_clock, nowIso, Date_now in *; simpl in *.

(** Compute the fields of a world, leaving the file map alone *)
Ltac wsimpl :=
  cbn [files env_dir clock ticks log write_faults put_files add_log tick
       fst snd] in *.


(** * Properties *)

(** ** Sample runs *)

Example js_String_arr :
  js_String (VArr [VNum 1; VNull; VArr [VStr "a"; VBool true]; VNum (-20)])
  = Some "1,,a,true,-20".
Proof. reflexivity. Qed.

Example trim_ex : trim "  a b  " = "a b".
Proof. reflexivity. Qed.

Example sanitize_ex : sanitizeHandleForPath "a/b\c" = "a_b_c".
Proof. reflexivity. Qed.

Example toISOString_ex :
  toISOString 0 = "1970-01-01T00:00:00.000Z"
  ∧ toISOString 1700000000123 = "2023-11-14T22:13:20.123Z"
  ∧ toISOString 951782400000 = "2000-02-29T00:00:00.000Z"
  ∧ toISOString (-1) = "1969-12-31T23:59:59.999Z"
  ∧ toISOString 253402300800000 = "+010000-01-01T00:00:00.000Z".
Proof. repeat split; vm_compute; reflexivity. Qed.

(** A save, a clear and a load in a row: the clear deletes the file the save
    wrote, and the load finds nothing. *)
Example save_clear_load :
  fst (saveAgentAuthState posix (VStr "bob") state_bob opts_d (world0 ∅))
  = Ok tt
  ∧ fst (clearAgentAuthState posix (VStr "bob") opts_d
           (snd (saveAgentAuthState posix (VStr "bob") state_bob opts_d
                   (world0 ∅))))
    = Ok true
  ∧ fst (loadAgentAuthState posix (VStr "bob") opts_d
           (snd (clearAgentAuthState posix (VStr "bob") opts_d
                   (snd (saveAgentAuthState posix (VStr "bob") state_bob opts_d
                           (world0 ∅))))))
    = Ok VNull.
Proof.
  split; [vm_compute; reflexivity|]. split; vm_compute; reflexivity.
Qed.

(** A record stored under legacy names loads under the canonical ones. *)
Example legacy_names_load :
  fst (loadAgentAuthState posix (VStr "alice")
         (mkOptions (VStr "/d") VUndef)
         (world0 {[ "/d/alice.json" :=
                      File (JsonText (VObj [("api_key", VStr "k1");
                                            ("provider", VStr "rsa");
                                            ("updated_at", VStr "t0")])) ]}))
  = Ok (VObj [("handle", VStr "alice"); ("apiKey", VStr "k1");
              ("publicKeyPem", VStr ""); ("privateKeyPem", VStr "");
              ("publicKeyJwk", VNull); ("privateKeyJwk", VNull);
              ("lastProvider", VStr "rsa"); ("updatedAt", VStr "t0");
              ("baseUrl", VStr ""); ("verificationProvider", VStr "")]).
Proof. vm_compute. reflexivity. Qed.

(** ** Strings *)

Lemma nonempty_true s : nonempty s = true ↔ s ≠ "".
Proof. destruct s; simpl; split; intros; congruence. Qed.

Lemma nonempty_false s : nonempty s = false ↔ s = "".
Proof. destruct s; simpl; split; intros; congruence. Qed.

Lemma trim_end_head c r c' r' :
  trim_end (String c r) = String c' r' → c' = c.
Proof.
  simpl. destruct (trim_end r); [destruct (is_ws c)|]; congruence.
Qed.

Lemma trim_end_idem s : trim_end (trim_end s) = trim_end s.
Proof.
  induction s as [|c r IH]; [done|]. simpl.
  destruct (trim_end r) as [|c1 r1] eqn:E.
  - destruct (is_ws c) eqn:W; simpl; [done|by rewrite W].
  - simpl in *. by rewrite IH.
Qed.

Lemma trim_start_head s c r : trim_start s = String c r → is_ws c = false.
Proof.
  induction s as [|a s IH]; simpl; [done|].
  destruct (is_ws a) eqn:W; [done|]. by intros [= <- <-].
Qed.

Lemma trim_start_fix c r : is_ws c = false → trim_start (String c r) = String c r.
Proof. simpl. by intros ->. Qed.

Lemma trim_head s c r : trim s = String c r → is_ws c = false.
Proof.
  unfold trim. destruct (trim_start s) as [|a t] eqn:E; [done|].
  intros H. apply trim_end_head in H as ->. by eapply trim_start_head.
Qed.

Lemma trim_idem s : trim (trim s) = trim s.
Proof.
  destruct (trim s) as [|c r] eqn:E; [done|].
  unfold trim at 1. rewrite trim_start_fix by (by eapply trim_head).
  rewrite <- E. unfold trim. by rewrite trim_end_idem.
Qed.

Lemma length_append s t :
  String.length (s +:+ t) = (String.length s + String.length t)%nat.
Proof. induction s as [|c s IH]; simpl; [done|by rewrite IH]. Qed.

Lemma append_longer s t : t ≠ "" → s +:+ t ≠ s.
Proof.
  intros Ht E. apply (f_equal String.length) in E. rewrite length_append in E.
  destruct t; simpl in E; [done|lia].
Qed.

Lemma sanitize_length s :
  String.length (sanitizeHandleForPath s) = String.length s.
Proof. induction s; simpl; congruence. Qed.

Lemma sanitize_get s i :
  String.get i (sanitizeHandleForPath s) = sanitize_char <$> String.get i s.
Proof.
  revert i. induction s as [|c r IH]; intros [|i]; simpl; auto.
Qed.

Lemma sanitize_char_spec c :
  sanitize_char c ≠ "/"%char ∧ sanitize_char c ≠ "\"%char
  ∧ (c = "/"%char ∨ c = "\"%char → sanitize_char c = "_"%char)
  ∧ (c ≠ "/"%char → c ≠ "\"%char → sanitize_char c = c).
Proof.
  unfold sanitize_char.
  destruct (Ascii.eqb_spec c "/"); [subst; simpl; repeat split; auto; congruence|].
  destruct (Ascii.eqb_spec c "\"); [subst; simpl; repeat split; auto; congruence|].
  simpl. repeat split; auto. intros [?|?]; congruence.
Qed.

(** ** Running the monad *)

Lemma normalizeStateDir_run host d w :
  normalizeStateDir host d w = (Ok (resolved_dir host d w), w).
Proof.
  unfold resolved_dir, normalizeStateDir. run_monad.
  destruct d; try (destruct (env_dir w) as [e|]; [destruct (nonempty e)|]; done).
  destruct (nonempty (trim s)); [done|].
  destruct (env_dir w) as [e|]; [destruct (nonempty e)|]; done.
Qed.

Lemma resolved_dir_env host d w w' :
  env_dir w' = env_dir w → resolved_dir host d w' = resolved_dir host d w.
Proof.
  intros E. unfold resolved_dir, normalizeStateDir. run_monad.
  destruct d; try (rewrite E; destruct (env_dir w) as [e|]; [destruct (nonempty e)|]; done).
  destruct (nonempty (trim s)); [done|]. rewrite E.
  destruct (env_dir w) as [e|]; [destruct (nonempty e)|]; done.
Qed.

Lemma load_run host handle o w :
  normalizeHandle handle ≠ "" →
  loadAgentAuthState host handle o w
  = load_loop
      (stateReadCandidates host (resolved_dir host (stateDir o) w)
         (normalizeHandle handle) (js_or (legacyStateDirs o) (VArr [])))
      (normalizeHandle handle) w.
Proof.
  intros H. apply nonempty_true in H. unfold loadAgentAuthState.
  rewrite H. simpl. unfold bind at 1. by rewrite normalizeStateDir_run.
Qed.

Lemma clear_run host handle o w :
  normalizeHandle handle ≠ "" →
  clearAgentAuthState host handle o w
  = clear_loop
      (stateReadCandidates host (resolved_dir host (stateDir o) w)
         (normalizeHandle handle) (js_or (legacyStateDirs o) (VArr [])))
      false w.
Proof.
  intros H. apply nonempty_true in H. unfold clearAgentAuthState.
  rewrite H. simpl. unfold bind at 1. by rewrite normalizeStateDir_run.
Qed.

Lemma getPath_run host handle o w :
  normalizeHandle handle ≠ "" →
  getAuthStateFilePath host handle o w
  = (Ok (stateFilePath host (resolved_dir host (stateDir o) w)
           (normalizeHandle handle)), w).
Proof.
  intros H. apply nonempty_true in H. unfold getAuthStateFilePath.
  rewrite H. simpl. unfold bind. by rewrite normalizeStateDir_run.
Qed.

(** ** Empty handles *)

(** C7. For a handle that is empty after trimming (a handle that is not a
    string included), [loadAgentAuthState] returns [null] and
    [clearAgentAuthState] returns [false], neither throwing nor making any
    file system call, while [getAuthStateFilePath] and [saveAgentAuthState]
    throw [Error("handle is required")] before any side effect. *)
Theorem C7_empty_handle host handle state o w :
  normalizeHandle handle = "" →
  loadAgentAuthState host handle o w = (Ok VNull, w)
  ∧ clearAgentAuthState host handle o w = (Ok false, w)
  ∧ getAuthStateFilePath host handle o w
    = (Throw (JsError "handle is required"), w)
  ∧ saveAgentAuthState host handle state o w
    = (Throw (JsError "handle is required"), w).
Proof.
  intros H.
  unfold loadAgentAuthState, clearAgentAuthState, getAuthStateFilePath,
    saveAgentAuthState.
  rewrite H. simpl. done.
Qed.

Lemma C7_empty_handle_witness :
  let w := world0 {[ "/d/x.json" := File (BadText "{") ]} in
  (loadAgentAuthState posix (VStr "  ") no_options w = (Ok VNull, w)
   ∧ clearAgentAuthState posix (VStr "  ") no_options w = (Ok false, w)
   ∧ getAuthStateFilePath posix (VStr "  ") no_options w
     = (Throw (JsError "handle is required"), w)
   ∧ saveAgentAuthState posix (VStr "  ") (VObj []) no_options w
     = (Throw (JsError "handle is required"), w))
  ∧ (loadAgentAuthState posix (VNum 7) no_options w = (Ok VNull, w)
   ∧ clearAgentAuthState posix (VNum 7) no_options w = (Ok false, w)
   ∧ getAuthStateFilePath posix (VNum 7) no_options w
     = (Throw (JsError "handle is required"), w)
   ∧ saveAgentAuthState posix (VNum 7) (VObj []) no_options w
     = (Throw (JsError "handle is required"), w)).
Proof.
  split.
  - apply (C7_empty_handle posix (VStr "  ")). reflexivity.
  - apply (C7_empty_handle posix (VNum 7)). reflexivity.
Defined.

(** ** What the operations do to the world *)

Lemma or_nowIso_cases a w :
  (truthy a = true ∧ or_nowIso a w = (Ok a, w))
  ∨ (truthy a = false
     ∧ or_nowIso a w = (Ok (VStr (toISOString (clock w (ticks w)))), tick w)).
Proof. unfold or_nowIso. destruct (truthy a); [left|right]; done. Qed.

Lemma normalizeState_frame raw fb w r w' :
  normalizeState raw fb w = (r, w') → w' = w ∨ w' = tick w.
Proof.
  unfold normalizeState.
  destruct (negb (truthy raw) || negb (is_object_type raw)).
  { intros [= <- <-]. by left. }
  destruct (js_String _) as [str|]; [|intros [= <- <-]; by left].
  destruct (negb (nonempty (trim str))); [intros [= <- <-]; by left|].
  unfold bind.
  destruct (or_nowIso_cases (js_or (get raw "updatedAt") (get raw "updated_at")) w)
    as [[_ ->]|[_ ->]]; intros [= <- <-]; auto.
Qed.

Lemma save_inv host handle state o w w' :
  normalizeHandle handle ≠ "" →
  saveAgentAuthState host handle state o w = (Ok tt, w') →
  ∃ normalized w1,
    normalizeState state (normalizeHandle handle) w = (Ok normalized, w1)
    ∧ let record :=
        VObj (set_prop
                (set_prop (spread (js_or normalized (VObj [])))
                   "handle" (VStr (normalizeHandle handle)))
                "updatedAt" (VStr (toISOString (clock w1 (ticks w1))))) in
      let dir := resolved_dir host (stateDir o) w in
      let p := stateFilePath host dir (normalizeHandle handle) in
      w' = put_files (<[p := File (JSON_stringify_nl record)]> (files w))
             (add_log (FsWrite p (JSON_stringify_nl record))
                (add_log (FsMkdir dir) (tick w1)))
      ∧ files w !! dir = None
      ∧ (∀ c, files w !! p ≠ Some (Fault c)).
Proof.
  intros H. apply nonempty_true in H. unfold saveAgentAuthState.
  rewrite H. simpl. unfold bind at 1.
  destruct (normalizeState state (normalizeHandle handle) w) as [[n|e] w1] eqn:N;
    [|done].
  assert (files w1 = files w ∧ env_dir w1 = env_dir w) as [Ef Ee].
  { apply normalizeState_frame in N as [->| ->]; done. }
  unfold bind at 1, nowIso, bind at 1, read_clock, ret at 1.
  unfold bind at 1. rewrite normalizeStateDir_run.
  rewrite (resolved_dir_env host _ w) by done.
  unfold fs_mkdir, fs_writeFile. run_monad. rewrite Ef.
  destruct (files w !! resolved_dir host (stateDir o) w) as [[t|c]|] eqn:D;
    [done|done|].
  simpl. rewrite ?Ef.
  destruct (files w !! stateFilePath host _ _) as [[t|c]|] eqn:P;
    [|done| ]; wsimpl;
    (destruct (write_faults w1 !! stateFilePath host _ _) as [[c rest]|];
       [done|]);
    intros [= <-]; exists n, w1; repeat split; auto; congruence.
Qed.

(** ** The remote key check *)

Lemma hasValidApiKey_run params w :
  hasValidApiKey params w =
  match requestJSON params with
  | NotFunction _ => (Ok false, w)
  | Function f =>
      if truthy (apiKey params)
      then (Ok (reports_valid_key (f (key_request params))),
            add_log (Request (key_request params)) w)
      else (Ok false, w)
  end.
Proof.
  unfold hasValidApiKey.
  destruct (requestJSON params) as [v|f]; cbn [is_function negb].
  { by rewrite orb_true_r. }
  rewrite orb_false_r. destruct (truthy (apiKey params)); [|done].
  cbn [negb]. unfold call. fold (key_request params). run_monad.
  destruct (f (key_request params)) as [out|e]; [|done]. simpl.
  destruct (truthy out); [|done]. simpl.
  destruct (truthy (get out "ok")); [|done]. simpl.
  destruct (truthy (get out "response")); [|done]. simpl.
  destruct (is_object_type (get out "response")); [|done]. simpl.
  destruct (truthy (get (get out "response") "error")); done.
Qed.

(** C4. [hasValidApiKey] never throws.  It returns [false] without calling
    the collaborator when [apiKey] is falsy or [requestJSON] is not a
    function.  Otherwise it calls the collaborator once and returns [true]
    exactly when the call resolves to a truthy result whose [ok] is truthy
    and whose [response] is an object with a falsy [error] and a truthy
    [data]; a throwing collaborator gives [false]. *)
Theorem C4_hasValidApiKey params w :
  (∃ b w', hasValidApiKey params w = (Ok b, w'))
  ∧ (truthy (apiKey params) = false → hasValidApiKey params w = (Ok false, w))
  ∧ (∀ v, requestJSON params = NotFunction v →
       hasValidApiKey params w = (Ok false, w))
  ∧ (∀ f, requestJSON params = Function f → truthy (apiKey params) = true →
       ∃ b, hasValidApiKey params w
            = (Ok b, add_log (Request (key_request params)) w)
         ∧ (∀ e, f (key_request params) = Throw e → b = false)
         ∧ (b = true ↔
            ∃ out, f (key_request params) = Ok out
              ∧ truthy out = true
              ∧ truthy (get out "ok") = true
              ∧ truthy (get out "response") = true
              ∧ is_object_type (get out "response") = true
              ∧ truthy (get (get out "response") "error") = false
              ∧ truthy (get (get out "response") "data") = true)).
Proof.
  rewrite hasValidApiKey_run. repeat split.
  - destruct (requestJSON params); [by eauto|].
    destruct (truthy (apiKey params)); by eauto.
  - intros ->. by destruct (requestJSON params).
  - by intros v ->.
  - intros f -> ->. eexists. split; [reflexivity|]. split.
    + by intros e ->.
    + unfold reports_valid_key.
      destruct (f (key_request params)) as [out|e].
      * rewrite !andb_true_iff, negb_true_iff. split.
        -- intros (((((?&?)&?)&?)&?)&?). exists out. done.
        -- intros (out' & [= <-] & ? & ? & ? & ? & ? & ?). done.
      * split; [done|]. by intros (out & ? & _).
Qed.

Lemma C4_hasValidApiKey_witness :
  hasValidApiKey key_ok (world0 ∅)
  = (Ok true, add_log (Request (key_request key_ok)) (world0 ∅))
  ∧ hasValidApiKey key_throws (world0 ∅)
    = (Ok false, add_log (Request (key_request key_throws)) (world0 ∅)).
Proof.
  split.
  - destruct (C4_hasValidApiKey key_ok (world0 ∅)) as (_ & _ & _ & Hf).
    destruct (Hf _ eq_refl eq_refl) as (b & E & _ & Hiff).
    assert (b = true) as ->; [|exact E].
    apply Hiff. eexists. split; [reflexivity|]. repeat split.
  - destruct (C4_hasValidApiKey key_throws (world0 ∅)) as (_ & _ & _ & Hf).
    destruct (Hf _ eq_refl eq_refl) as (b & E & Hthrow & _).
    assert (b = false) as ->; [|exact E].
    by eapply Hthrow.
Defined.

(** ** Normalization *)

Lemma toISOString_nonempty t : toISOString t ≠ "".
Proof.
  unfold toISOString. destruct (civil_of_days _) as [[y m] d].
  intros H. apply (f_equal String.length) in H.
  rewrite !length_append in H. simpl in H. lia.
Qed.

Lemma truthy_iso t : truthy (VStr (toISOString t)) = true.
Proof. pose proof (toISOString_nonempty t). by destruct (toISOString t). Qed.

Lemma or_nowIso_truthy a w u w' :
  or_nowIso a w = (Ok u, w') → truthy u = true.
Proof.
  destruct (or_nowIso_cases a w) as [[T ->]|[_ ->]]; intros [= <- <-];
    [done|apply truthy_iso].
Qed.

Lemma or_nowIso_ok a w : ∃ u w', or_nowIso a w = (Ok u, w').
Proof. destruct (or_nowIso_cases a w) as [[_ ->]|[_ ->]]; eauto. Qed.

Lemma normalizeState_cases raw fb w :
  (normalizeState raw fb w = (Ok VNull, w) ∧ yields_state fb raw = false
   ∧ (truthy raw && is_object_type raw = false
      ∨ derived_handle raw fb = Some ""))
  ∨ (normalizeState raw fb w = (Throw TypeError, w)
     ∧ yields_state fb raw = false
     ∧ truthy raw && is_object_type raw = true
     ∧ derived_handle raw fb = None)
  ∨ (∃ h u w',
       truthy raw && is_object_type raw = true
       ∧ derived_handle raw fb = Some h ∧ h ≠ ""
       ∧ or_nowIso (js_or (get raw "updatedAt") (get raw "updated_at")) w
         = (Ok u, w')
       ∧ normalizeState raw fb w = (Ok (normalized_record raw h u), w')
       ∧ yields_state fb raw = true).
Proof.
  unfold yields_state, normalizeState, derived_handle.
  destruct (truthy raw); simpl; [|left; auto].
  destruct (is_object_type raw); simpl; [|left; auto].
  destruct (js_String _) as [str|]; simpl; [|right; left; auto].
  destruct (nonempty (trim str)) eqn:E; simpl.
  - right; right. apply nonempty_true in E.
    destruct (or_nowIso_ok (js_or (get raw "updatedAt") (get raw "updated_at")) w)
      as (u & w' & Hu).
    exists (trim str), u, w'. repeat split; auto.
    + unfold bind. by rewrite Hu.
    + unfold bind.
      by destruct (or_nowIso_ok (js_or (get raw "updatedAt") (get raw "updated_at"))
                (mkWorld ∅ None (λ _, 0) 0 [] ∅)) as (u0 & w0 & ->).
  - left. apply nonempty_false in E. rewrite E. auto.
Qed.

Lemma yields_state_spec raw fb w :
  match normalizeState raw fb w with
  | (Ok st, _) => truthy st = yields_state fb raw
  | (Throw _, _) => yields_state fb raw = false
  end.
Proof.
  destruct (normalizeState_cases raw fb w)
    as [(-> & -> & _)|[(-> & -> & _)|(h & u & w' & _ & _ & _ & _ & -> & ->)]];
    done.
Qed.

Lemma js_or_defined a b : b ≠ VUndef → js_or a b ≠ VUndef.
Proof.
  intros Hb. unfold js_or. destruct (truthy a) eqn:Ta; [|done]. by destruct a.
Qed.

Lemma js_or_default a d : truthy (js_or a d) = true ∨ js_or a d = d.
Proof. unfold js_or. destruct (truthy a) eqn:E; [by left|by right]. Qed.

Lemma normalized_record_well_formed raw h u :
  h ≠ "" → trim h = h → truthy u = true → well_formed (normalized_record raw h u).
Proof.
  intros Hh Ht Hu. split; [by eexists|]. split; [by exists h|].
  intros k Hk. unfold field_names in Hk.
  repeat (apply elem_of_cons in Hk as [-> | Hk]); simpl;
    try (apply js_or_defined; done); try done.
  - intros ->. done.
  - by apply elem_of_nil in Hk.
Qed.

Lemma normalizeState_record raw fb w st w' :
  normalizeState raw fb w = (Ok st, w') → st ≠ VNull →
  ∃ h u, derived_handle raw fb = Some h ∧ h ≠ "" ∧ trim h = h
    ∧ or_nowIso (js_or (get raw "updatedAt") (get raw "updated_at")) w
      = (Ok u, w')
    ∧ st = normalized_record raw h u.
Proof.
  intros N Hst.
  destruct (normalizeState_cases raw fb w)
    as [(E & _)|[(E & _)|(h & u & w1 & _ & Hh & Hne & Hu & E & _)]];
    rewrite E in N; try congruence.
  injection N as <- <-. exists h, u. repeat split; auto.
  unfold derived_handle in Hh. destruct (js_String _); [|done].
  injection Hh as <-. apply trim_idem.
Qed.

Lemma first_truthy_or2 a b d v :
  first_truthy [a; b] = Some v → js_or (js_or a b) d = v.
Proof.
  unfold js_or. simpl.
  destruct (truthy a) eqn:Ta; [|destruct (truthy b) eqn:Tb];
    intros [= <-]; by rewrite ?Ta, ?Tb.
Qed.

Lemma first_truthy_or3 a b c d v :
  first_truthy [a; b; c] = Some v → js_or (js_or (js_or a b) c) d = v.
Proof.
  unfold js_or. simpl.
  destruct (truthy a) eqn:Ta;
    [|destruct (truthy b) eqn:Tb; [|destruct (truthy c) eqn:Tc]];
    intros [= <-]; by rewrite ?Ta, ?Tb, ?Tc.
Qed.

(** ** Legacy field names *)

(** C2, as the code has it.  The value of a field is the first truthy value
    among the canonical name and then its legacy aliases, in that order: a
    canonical value that is truthy wins over every alias, and a canonical
    value that is falsy (the empty string, say) gives way to a truthy
    alias. *)
Theorem C2_alias_precedence raw fb w st w' canon aliases :
  normalizeState raw fb w = (Ok st, w') → st ≠ VNull →
  (canon, aliases) ∈ alias_table →
  (truthy (get raw canon) = true → get st canon = get raw canon)
  ∧ (∀ v, first_truthy (get raw canon :: map (get raw) aliases) = Some v →
       get st canon = v).
Proof.
  intros N Hst Hin.
  apply normalizeState_record in N as (h & u & _ & _ & _ & Hu & ->); [|done].
  assert (∀ v, first_truthy (get raw canon :: map (get raw) aliases) = Some v →
            get (normalized_record raw h u) canon = v) as Hall.
  { intros v. unfold alias_table in Hin.
    repeat (apply elem_of_cons in Hin as [[= -> ->] | Hin]);
      [..|by apply elem_of_nil in Hin];
      try (apply first_truthy_or2); try (apply first_truthy_or3).
    intros Hv. change (u = v).
    change (first_truthy [get raw "updatedAt"; get raw "updated_at"] = Some v)
      in Hv.
    destruct (or_nowIso_cases (js_or (get raw "updatedAt") (get raw "updated_at")) w)
      as [[T Hu']|[T Hu']]; rewrite Hu' in Hu; injection Hu as <- _.
    - apply (first_truthy_or2 _ _ (VStr "")) in Hv.
      unfold js_or at 1 in Hv. by rewrite T in Hv.
    - unfold js_or in T. simpl in Hv.
      destruct (truthy (get raw "updatedAt")) eqn:Ta; [congruence|].
      rewrite T in Hv. done. }
  split; [|exact Hall].
  intros T. apply Hall. simpl. by rewrite T.
Qed.

Lemma C2_alias_precedence_witness :
  match normalizeState raw_new_old "" (world0 ∅) with
  | (Ok st, _) => get st "apiKey" = VStr "new"
  | (Throw _, _) => False
  end.
Proof.
  destruct (normalizeState raw_new_old "" (world0 ∅)) as [[st|e] w'] eqn:N.
  - apply (C2_alias_precedence raw_new_old "" (world0 ∅) st w'
             "apiKey" ["api_key"] N).
    + vm_compute in N. injection N as <- _. discriminate.
    + unfold alias_table. apply elem_of_cons. by left.
    + reflexivity.
  - vm_compute in N. discriminate.
Defined.

(** With both names present and the canonical value the empty string, the
    legacy value is used: the normalized field differs from the canonical
    one. *)
Lemma C2_counterexample :
  has_own "apiKey" (spread raw_both_names) = true
  ∧ has_own "api_key" (spread raw_both_names) = true
  ∧ get raw_both_names "apiKey" = VStr ""
  ∧ fst (normalizeState raw_both_names "" (world0 ∅)) = Ok st_both_names
  ∧ get st_both_names "apiKey" = VStr "legacy"
  ∧ get st_both_names "apiKey" ≠ get raw_both_names "apiKey".
Proof.
  split; [reflexivity|]. split; [reflexivity|]. split; [reflexivity|].
  split; [vm_compute; reflexivity|]. split; [reflexivity|].
  vm_compute. discriminate.
Qed.

(** ** Reading one candidate *)

Lemma backupCorruptState_run p w :
  backupCorruptState p w = (Ok tt, quarantined p w).
Proof.
  unfold backupCorruptState, quarantined, fs_rename. run_monad.
  destruct (files w !! p) as [[t|c]|]; simpl; try done.
  destruct (files w !! backupPath p (clock w (ticks w))) as [[t'|c']|]; done.
Qed.

Lemma safeReadState_run p fb w :
  safeReadState p fb w =
  let w1 := add_log (FsRead p) w in
  match files w !! p with
  | None => (Ok VNull, w1)
  | Some (Fault c) =>
      if String.eqb c "ENOENT" then (Ok VNull, w1) else (Throw (FsError c), w1)
  | Some (File (BadText _)) => (Ok VNull, quarantined p w1)
  | Some (File (JsonText raw)) =>
      match normalizeState raw fb w1 with
      | (Ok st, w2) => (Ok st, w2)
      | (Throw _, w2) => (Ok VNull, quarantined p w2)
      end
  end.
Proof.
  unfold safeReadState, fs_readFile.
  unfold bind at 1, try_catch at 1, bind at 1, bind at 1, emit, bind at 1,
    get_files. simpl.
  destruct (files w !! p) as [[[raw|bad]|c]|]; simpl.
  - unfold ret at 1. unfold try_catch, bind at 1, JSON_parse, ret at 1.
    destruct (normalizeState raw fb _) as [[st|e] w2]; [done|].
    unfold bind. by rewrite backupCorruptState_run.
  - unfold ret at 1. unfold try_catch, bind at 1, JSON_parse, throw at 1.
    unfold bind. by rewrite backupCorruptState_run.
  - unfold throw at 1, is_ENOENT. simpl. by destruct (String.eqb c "ENOENT").
  - done.
Qed.



(** ** JSON images *)


Lemma json_image_obj ps : json_image (VObj ps) = VObj (json_props ps).
Proof.
  simpl. f_equal. unfold json_props.
  induction ps as [|[k x] ps IH]; [done|].
  simpl. rewrite IH. by destruct x.
Qed.

Lemma json_props_defined ps :
  Forall (λ kv, kv.2 ≠ VUndef) ps →
  json_props ps = map (λ kv, (kv.1, json_image kv.2)) ps.
Proof.
  unfold json_props. induction 1 as [|[k x] ps Hx _ IH]; [done|].
  simpl in *. rewrite IH. by destruct x.
Qed.

Lemma normalized_record_defined raw h u :
  truthy u = true →
  Forall (λ kv, kv.2 ≠ VUndef) (spread (normalized_record raw h u)).
Proof.
  intros Hu. simpl. repeat constructor; simpl;
    try (apply js_or_defined; done); try done.
  intros ->. done.
Qed.


(** ** What a save writes *)

Lemma save_record host handle state o w w' :
  normalizeHandle handle ≠ "" →
  saveAgentAuthState host handle state o w = (Ok tt, w') →
  let nh := normalizeHandle handle in
  let p := stateFilePath host (resolved_dir host (stateDir o) w) nh in
  ∃ w1 ts,
    (w1 = w ∨ w1 = tick w)
    ∧ ts = VStr (toISOString (clock w (ticks w1)))
    ∧ ticks w' = S (ticks w1)
    ∧ env_dir w' = env_dir w
    ∧ files w' = <[p := File (JsonText
                (if yields_state nh state
                 then json_image (normalized_record state nh ts)
                 else VObj [("handle", VStr nh); ("updatedAt", ts)]))]> (files w)
    ∧ last (log w') = Some (FsWrite p (JsonText
                (if yields_state nh state
                 then json_image (normalized_record state nh ts)
                 else VObj [("handle", VStr nh); ("updatedAt", ts)]))).
Proof.
  intros H S. apply save_inv in S as (n & w1 & N & -> & _); [|done].
  wsimpl. exists w1, (VStr (toISOString (clock w (ticks w1)))).
  assert (w1 = w ∨ w1 = tick w) as Hw by (by eapply normalizeState_frame).
  assert (clock w1 = clock w ∧ env_dir w1 = env_dir w) as [Ec Ee]
    by (destruct Hw as [-> | ->]; done).
  rewrite Ec. split; [done|]. split; [done|]. split; [done|]. split; [done|].
  assert (JSON_stringify_nl
            (VObj (set_prop (set_prop (spread (js_or n (VObj []))) "handle"
                               (VStr (normalizeHandle handle)))
                     "updatedAt" (VStr (toISOString (clock w (ticks w1))))))
          = JsonText
              (if yields_state (normalizeHandle handle) state
               then json_image (normalized_record state (normalizeHandle handle)
                                  (VStr (toISOString (clock w (ticks w1)))))
               else VObj [("handle", VStr (normalizeHandle handle));
                          ("updatedAt", VStr (toISOString (clock w (ticks w1))))]))
    as ->.
  { unfold JSON_stringify_nl. f_equal.
    destruct (normalizeState_cases state (normalizeHandle handle) w)
      as [(E & -> & _)|[(E & _)|(h & u & w2 & _ & _ & _ & _ & E & ->)]];
      rewrite E in N; [|done|]; injection N as <- <-; reflexivity. }
  split; [done|]. by rewrite last_snoc.
Qed.

(** ** The fallback handle *)

Lemma truthy_str s : s ≠ "" → truthy (VStr s) = true.
Proof. by destruct s. Qed.

Lemma normalizeHandle_trimmed handle :
  trim (normalizeHandle handle) = normalizeHandle handle.
Proof. destruct handle; try done. apply trim_idem. Qed.

Lemma push_legacy_head host nh p acc dirs :
  ∃ rest, push_legacy host nh (p :: acc) dirs = p :: rest.
Proof.
  revert acc. induction dirs as [|x l IH]; intros acc; simpl; [by eexists|].
  destruct x; try apply IH.
  destruct (negb _); [apply IH|apply (IH (acc ++ [_]))].
Qed.

Lemma candidates_head host dir nh legacy :
  ∃ rest, stateReadCandidates host dir nh legacy
          = stateFilePath host dir nh :: rest
    ∧ (legacy = VArr [] → rest = []).
Proof.
  unfold stateReadCandidates. destruct legacy; try (by exists []).
  destruct (push_legacy_head host nh (stateFilePath host dir nh) [] xs)
    as [rest Hr].
  exists rest. split; [done|]. intros [= ->]. simpl in Hr. congruence.
Qed.

Lemma derived_handle_fallback raw nh :
  nh ≠ "" → trim nh = nh → truthy (get raw "handle") = false →
  derived_handle raw nh = Some nh.
Proof.
  intros Hne Ht Hf. unfold derived_handle, js_or. rewrite Hf.
  destruct nh as [|a nh']; [done|].
  change (Some (trim (String a nh')) = Some (String a nh')). by rewrite Ht.
Qed.

Lemma derived_handle_stored raw nh s :
  get raw "handle" = VStr s → s ≠ "" → derived_handle raw nh = Some (trim s).
Proof.
  intros Hs Hne. unfold derived_handle. rewrite Hs.
  destruct s; [done|reflexivity].
Qed.

(** C10, as the code has it.  Normalization during load falls back on the
    trimmed requested handle: a stored object (or array) whose [handle] is
    falsy loads as a state under the requested handle.  A stored [handle]
    that is a string and not blank loads under the stored handle, trimmed,
    whatever handle was requested.  The content is treated as not found,
    and is not renamed aside, exactly when it is no object or when the
    handle it derives is empty after trimming, as for a stored handle made
    of white space. *)
Theorem C10_fallback_handle host handle o w raw :
  normalizeHandle handle ≠ "" →
  let nh := normalizeHandle handle in
  let p := stateFilePath host (resolved_dir host (stateDir o) w) nh in
  files w !! p = Some (File (JsonText raw)) →
  (truthy raw && is_object_type raw = true →
   truthy (get raw "handle") = false →
   ∃ st w', loadAgentAuthState host handle o w = (Ok st, w')
     ∧ well_formed st ∧ get st "handle" = VStr nh ∧ files w' = files w)
  ∧ (∀ s, truthy raw && is_object_type raw = true →
       get raw "handle" = VStr s → trim s ≠ "" →
       ∃ st w', loadAgentAuthState host handle o w = (Ok st, w')
         ∧ well_formed st ∧ get st "handle" = VStr (trim s)
         ∧ files w' = files w)
  ∧ (js_or (legacyStateDirs o) (VArr []) = VArr [] →
     (loadAgentAuthState host handle o w = (Ok VNull, add_log (FsRead p) w)
      ↔ truthy raw && is_object_type raw = false
        ∨ derived_handle raw nh = Some "")).
Proof.
  intros H nh p Hp.
  destruct (candidates_head host (resolved_dir host (stateDir o) w) nh
              (js_or (legacyStateDirs o) (VArr []))) as (rest & Hc & Hrest).
  fold p in Hc.
  assert (∀ h, truthy raw && is_object_type raw = true →
            derived_handle raw nh = Some h → h ≠ "" →
            ∃ st w', loadAgentAuthState host handle o w = (Ok st, w')
              ∧ well_formed st ∧ get st "handle" = VStr h
              ∧ files w' = files w) as Hload.
  { intros h Ho Hd Hne. rewrite load_run by done. fold nh. rewrite Hc. simpl.
    unfold bind. rewrite safeReadState_run, Hp. simpl.
    destruct (normalizeState_cases raw nh (add_log (FsRead p) w))
      as [(_ & _ & [E|E])|[(_ & _ & _ & E)|(h' & u & w2 & _ & Hh & Hne' & Hu & -> & _)]];
      try congruence.
    assert (h' = h) as -> by congruence.
    simpl. eexists _, _. split; [done|].
    assert (trim h = h) as Ht.
    { unfold derived_handle in Hd. destruct (js_String _); [|done].
      injection Hd as <-. apply trim_idem. }
    split; [|split; [done|]].
    - apply normalized_record_well_formed; auto. by eapply or_nowIso_truthy.
    - destruct (or_nowIso_cases (js_or (get raw "updatedAt") (get raw "updated_at"))
                  (add_log (FsRead p) w)) as [[_ E]|[_ E]];
        rewrite E in Hu; by injection Hu as _ <-. }
  split; [|split].
  - intros Ho Hf. apply Hload; [done| |done].
    apply derived_handle_fallback; [done|apply normalizeHandle_trimmed|done].
  - intros s Ho Hs Hne. apply Hload; [done| |done].
    apply derived_handle_stored; [done|]. intros ->. done.
  - intros Hl. rewrite load_run by done. fold nh. rewrite Hc, (Hrest Hl). simpl.
    unfold bind. rewrite safeReadState_run, Hp. simpl.
    destruct (normalizeState_cases raw nh (add_log (FsRead p) w))
      as [(-> & _ & E)|[(-> & _ & Ho & E)|(h' & u & w2 & Ho & Hh & Hne' & Hu & -> & _)]];
      simpl.
    + split; [done|]. intros _. done.
    + split.
      * intros [= Hq]. apply (f_equal log) in Hq. unfold quarantined in Hq.
        simpl in Hq. rewrite Hp in Hq.
        assert (∀ l (a b : Event), l ++ [a] ++ [b] ≠ l ++ [a]) as Hlen.
        { intros l a b E'. apply (f_equal (@List.length Event)) in E'.
          rewrite !List.length_app in E'. simpl in E'. lia. }
        destruct (files w !! backupPath p _) as [[?|?]|]; simpl in Hq;
          rewrite <- app_assoc in Hq; by apply Hlen in Hq.
      * intros [?|?]; congruence.
    + split; [done|]. intros [?|?]; congruence.
Qed.

Lemma C10_fallback_handle_witness :
  ∃ st w', loadAgentAuthState posix (VStr "bob") opts_d world_other_handle
           = (Ok st, w')
    ∧ well_formed st ∧ get st "handle" = VStr "alice"
    ∧ files w' = files world_other_handle.
Proof.
  assert (normalizeHandle (VStr "bob") ≠ "") as H by (vm_compute; congruence).
  refine (proj1 (proj2 (C10_fallback_handle posix (VStr "bob") opts_d
                          world_other_handle raw_other_handle H _))
            " alice " _ _ _).
  - vm_compute. reflexivity.
  - reflexivity.
  - reflexivity.
  - vm_compute. congruence.
Defined.

(** A stored object whose handle is blank loads as [null], for a handle that
    is not empty, and the file stays where it is. *)
Lemma C10_counterexample :
  files world_blank_handle !! "/d/bob.json"
  = Some (File (JsonText raw_blank_handle))
  ∧ truthy raw_blank_handle && is_object_type raw_blank_handle = true
  ∧ normalizeHandle (VStr "bob") = "bob"
  ∧ fst (loadAgentAuthState posix (VStr "bob") opts_d world_blank_handle)
    = Ok VNull
  ∧ files (snd (loadAgentAuthState posix (VStr "bob") opts_d world_blank_handle))
    = files world_blank_handle.
Proof.
  split; [vm_compute; reflexivity|]. split; [reflexivity|].
  split; [reflexivity|]. split; vm_compute; reflexivity.
Qed.

(** ** Clearing *)

Lemma unlink_step c deleted w :
  try_catch (run fs_unlink c ; ret true)
    (λ err, if negb (is_ENOENT err) then throw err else ret deleted) w
  = let w1 := add_log (FsUnlink c) w in
    match files w !! c with
    | Some (File _) => (Ok true, put_files (delete c (files w)) w1)
    | Some (Fault code) =>
        if String.eqb code "ENOENT" then (Ok deleted, w1)
        else (Throw (FsError code), w1)
    | None => (Ok deleted, w1)
    end.
Proof.
  unfold fs_unlink. run_monad.
  destruct (files w !! c) as [[t|code]|]; simpl; try done.
  unfold is_ENOENT. simpl. by destruct (String.eqb code "ENOENT").
Qed.

Lemma clear_loop_cons c cands deleted w :
  clear_loop (c :: cands) deleted w
  = match try_catch (run fs_unlink c ; ret true)
            (λ err, if negb (is_ENOENT err) then throw err else ret deleted) w
    with
    | (Ok deleted', w1) => clear_loop cands deleted' w1
    | (Throw e, w1) => (Throw e, w1)
    end.
Proof. reflexivity. Qed.

Lemma hard_fault_delete c q (fs : gmap string Entry) :
  hard_fault (fs !! q) = false → hard_fault (delete c fs !! q) = false.
Proof.
  destruct (decide (c = q)) as [->|Hne];
    [by rewrite lookup_delete_eq|by rewrite lookup_delete_ne].
Qed.

Lemma clear_loop_ok cands deleted w :
  (∀ c, c ∈ cands → hard_fault (files w !! c) = false) →
  ∃ w', clear_loop cands deleted w
        = (Ok (deleted || existsb (λ c, is_file (files w !! c)) cands), w')
    ∧ log w' = log w ++ map FsUnlink cands
    ∧ ∀ q, files w' !! q
           = if bool_decide (q ∈ cands) && is_file (files w !! q)
             then None else files w !! q.
Proof.
  revert deleted w. induction cands as [|c cands IH]; intros deleted w Hh.
  { exists w. cbn [clear_loop existsb map]. rewrite orb_false_r, app_nil_r.
    done. }
  rewrite clear_loop_cons, unlink_step. cbn zeta. cbn [existsb map].
  assert (hard_fault (files w !! c) = false) as Hc
    by (apply Hh, elem_of_cons; by left).
  assert (∀ q, q ∈ cands → hard_fault (files w !! q) = false) as Hrest
    by (intros q Hq; apply Hh, elem_of_cons; by right).
  assert (∀ q, q ≠ c → bool_decide (q ∈ c :: cands) = bool_decide (q ∈ cands))
    as Hdec.
  { intros q Hq. apply bool_decide_ext. rewrite elem_of_cons.
    split; [by intros [?|?]|auto]. }
  assert (∀ w1 d, files w1 = files w → log w1 = log w ++ [FsUnlink c] →
            is_file (files w !! c) = false →
            ∃ w', clear_loop cands d w1
                  = (Ok (d || (false
                               || existsb (λ c0, is_file (files w !! c0)) cands)),
                     w')
              ∧ log w' = log w ++ FsUnlink c :: map FsUnlink cands
              ∧ ∀ q, files w' !! q
                     = if bool_decide (q ∈ c :: cands) && is_file (files w !! q)
                       then None else files w !! q) as Hkeep.
  { intros w1 d Ef El Hnf.
    destruct (IH d w1) as (w' & -> & Hl & Hf).
    { intros q Hq. rewrite Ef. by apply Hrest. }
    exists w'. rewrite Ef. split; [done|].
    split; [by rewrite Hl, El, <- app_assoc|].
    intros q. rewrite Hf, Ef. destruct (decide (q = c)) as [->|Hne].
    - by rewrite Hnf, !andb_false_r.
    - by rewrite Hdec. }
  destruct (files w !! c) as [[t|code]|] eqn:E.
  - destruct (IH true (put_files (delete c (files w)) (add_log (FsUnlink c) w)))
      as (w' & -> & Hl & Hf).
    { intros q Hq. wsimpl. by apply hard_fault_delete, Hrest. }
    exists w'. wsimpl. cbn [is_file orb]. rewrite orb_true_r.
    split; [done|]. split; [by rewrite Hl, <- app_assoc|].
    intros q. rewrite Hf. destruct (decide (q = c)) as [->|Hne].
    + rewrite lookup_delete_eq, E. cbn [is_file]. rewrite andb_false_r.
      by rewrite bool_decide_eq_true_2 by (apply elem_of_cons; by left).
    + rewrite lookup_delete_ne by done. by rewrite Hdec.
  - cbn [hard_fault] in Hc. apply negb_false_iff in Hc. rewrite Hc.
    by apply Hkeep.
  - by apply Hkeep.
Qed.

Lemma clear_loop_fault pre c post code deleted w :
  (∀ q, q ∈ pre → hard_fault (files w !! q) = false) →
  files w !! c = Some (Fault code) → code ≠ "ENOENT" →
  ∃ w', clear_loop (pre ++ c :: post) deleted w = (Throw (FsError code), w')
    ∧ log w' = log w ++ map FsUnlink (pre ++ [c])
    ∧ ∀ q, q ∉ pre → files w' !! q = files w !! q.
Proof.
  intros Hpre Hc Hcode. revert deleted w Hpre Hc.
  induction pre as [|c0 pre IH]; intros deleted w Hpre Hc;
    cbn [app]; rewrite clear_loop_cons, unlink_step; cbn zeta; cbn [map app].
  - rewrite Hc. apply String.eqb_neq in Hcode. rewrite Hcode.
    eexists. split; [done|]. split; done.
  - assert (hard_fault (files w !! c0) = false) as H0
      by (apply Hpre, elem_of_cons; by left).
    assert (∀ q, q ∈ pre → hard_fault (files w !! q) = false) as Hrest
      by (intros q Hq; apply Hpre, elem_of_cons; by right).
    assert (∀ w1 d, files w1 = files w → log w1 = log w ++ [FsUnlink c0] →
              ∃ w', clear_loop (pre ++ c :: post) d w1
                    = (Throw (FsError code), w')
                ∧ log w' = log w ++ FsUnlink c0 :: map FsUnlink (pre ++ [c])
                ∧ ∀ q, q ∉ c0 :: pre → files w' !! q = files w !! q) as Hkeep.
    { intros w1 d Ef El.
      destruct (IH d w1) as (w' & -> & Hl & Hf).
      { intros q Hq. rewrite Ef. by apply Hrest. }
      { by rewrite Ef. }
      exists w'. split; [done|]. split; [by rewrite Hl, El, <- app_assoc|].
      intros q Hq. apply not_elem_of_cons in Hq as [Hq0 Hq].
      rewrite Hf by done. by rewrite Ef. }
    destruct (files w !! c0) as [[t|code0]|] eqn:E.
    + destruct (IH true (put_files (delete c0 (files w)) (add_log (FsUnlink c0) w)))
        as (w' & -> & Hl & Hf).
      { intros q Hq. wsimpl. by apply hard_fault_delete, Hrest. }
      { wsimpl. rewrite lookup_delete_ne; [done|]. intros ->. congruence. }
      exists w'. wsimpl. split; [done|].
      split; [by rewrite Hl, <- app_assoc|].
      intros q Hq. apply not_elem_of_cons in Hq as [Hq0 Hq].
      rewrite Hf by done. by rewrite lookup_delete_ne.
    + cbn [hard_fault] in H0. apply negb_false_iff in H0. rewrite H0.
      by apply Hkeep.
    + by apply Hkeep.
Qed.

(** C6. For a handle that is not empty, [clearAgentAuthState] unlinks the
    primary path and every legacy candidate, in order.  When no candidate
    fails with anything but ENOENT it returns whether at least one of them
    was a file (which it has then deleted), every candidate has been tried,
    and a missing file is not an error.  When a candidate fails with
    another code, that error is thrown and no later candidate is tried. *)
Theorem C6_clear host handle o w :
  normalizeHandle handle ≠ "" →
  let nh := normalizeHandle handle in
  let cands :=
    stateReadCandidates host (resolved_dir host (stateDir o) w) nh
      (js_or (legacyStateDirs o) (VArr [])) in
  ((∀ c, c ∈ cands → hard_fault (files w !! c) = false) →
   ∃ w', clearAgentAuthState host handle o w
         = (Ok (existsb (λ c, is_file (files w !! c)) cands), w')
     ∧ log w' = log w ++ map FsUnlink cands
     ∧ ∀ q, files w' !! q
            = if bool_decide (q ∈ cands) && is_file (files w !! q)
              then None else files w !! q)
  ∧ (∀ pre c post code,
       cands = pre ++ c :: post →
       (∀ q, q ∈ pre → hard_fault (files w !! q) = false) →
       files w !! c = Some (Fault code) → code ≠ "ENOENT" →
       ∃ w', clearAgentAuthState host handle o w = (Throw (FsError code), w')
         ∧ log w' = log w ++ map FsUnlink (pre ++ [c])
         ∧ ∀ q, q ∉ pre → files w' !! q = files w !! q).
Proof.
  intros H nh cands. rewrite clear_run by done. fold nh cands. split.
  - intros Hh. by apply (clear_loop_ok cands false w).
  - intros pre c post code -> Hpre Hc Hcode. by apply clear_loop_fault.
Qed.

Lemma C6_clear_witness :
  (∃ w', clearAgentAuthState posix (VStr "bob") opts_a world_clear
         = (Ok true, w')
     ∧ log w' = [FsUnlink "/d/bob.json"; FsUnlink "/a/bob.json"]
     ∧ files w' !! "/a/bob.json" = None)
  ∧ (∃ w', clearAgentAuthState posix (VStr "bob") opts_ab world_clear
           = (Throw (FsError "EACCES"), w')
       ∧ log w' = [FsUnlink "/d/bob.json"; FsUnlink "/a/bob.json";
                   FsUnlink "/b/bob.json"]).
Proof.
  assert (normalizeHandle (VStr "bob") ≠ "") as H by (vm_compute; congruence).
  split.
  - destruct (C6_clear posix (VStr "bob") opts_a world_clear H) as [Hok _].
    destruct Hok as (w' & E & L & F).
    { intros c Hc. vm_compute in Hc.
      repeat (apply elem_of_cons in Hc as [-> | Hc]);
        [..|by apply elem_of_nil in Hc]; vm_compute; reflexivity. }
    exists w'. split; [exact E|]. split; [exact L|].
    rewrite F. vm_compute. reflexivity.
  - destruct (C6_clear posix (VStr "bob") opts_ab world_clear H) as [_ Hfault].
    destruct (Hfault ["/d/bob.json"; "/a/bob.json"] "/b/bob.json"
                ["/c/bob.json"] "EACCES") as (w' & E & L & _).
    + vm_compute. reflexivity.
    + intros q Hq. repeat (apply elem_of_cons in Hq as [-> | Hq]);
        [..|by apply elem_of_nil in Hq]; vm_compute; reflexivity.
    + vm_compute. reflexivity.
    + discriminate.
    + exists w'. split; [exact E|exact L].
Defined.

(** ** Candidates that yield nothing *)

Lemma backupPath_fresh p t : backupPath p t ≠ p.
Proof. unfold backupPath. by apply append_longer. Qed.

Lemma quarantined_lookup p w q :
  files (quarantined p w) !! q = files w !! q
  ∨ files (quarantined p w) !! q = None
  ∨ (files (quarantined p w) !! q = files w !! p ∧ is_file (files w !! p) = true).
Proof.
  unfold quarantined.
  destruct (files w !! p) as [[t|c]|] eqn:E; simpl; auto.
  destruct (files w !! backupPath p _) as [[t'|c']|] eqn:B; simpl; auto.
  - destruct (decide (q = backupPath p (clock w (ticks w)))) as [->|Hq].
    + rewrite lookup_insert_eq. auto.
    + rewrite lookup_insert_ne by done.
      destruct (decide (p = q)) as [->|Hp];
        [rewrite lookup_delete_eq|rewrite lookup_delete_ne by done]; auto.
  - destruct (decide (q = backupPath p (clock w (ticks w)))) as [->|Hq].
    + rewrite lookup_insert_eq. auto.
    + rewrite lookup_insert_ne by done.
      destruct (decide (p = q)) as [->|Hp];
        [rewrite lookup_delete_eq|rewrite lookup_delete_ne by done]; auto.
Qed.

Lemma quarantined_other p w q :
  q ≠ p → (∀ t, backupPath p t ≠ q) →
  files (quarantined p w) !! q = files w !! q.
Proof.
  intros Hp Hb. unfold quarantined.
  destruct (files w !! p) as [[t|c]|] eqn:E; simpl; auto.
  destruct (files w !! backupPath p _) as [[t'|c']|] eqn:B; simpl; auto;
    rewrite lookup_insert_ne by apply Hb; by rewrite lookup_delete_ne.
Qed.

Lemma safeReadState_no_state p fb w :
  no_state fb (files w !! p) = true →
  ∃ w', safeReadState p fb w = (Ok VNull, w')
    ∧ (∀ q, no_state fb (files w !! q) = true →
            no_state fb (files w' !! q) = true)
    ∧ (∀ q, q ≠ p → (∀ t, backupPath p t ≠ q) →
            files w' !! q = files w !! q).
Proof.
  intros Hn. rewrite safeReadState_run. simpl.
  assert (∀ w1, files w1 = files w →
            (∀ q, no_state fb (files w !! q) = true →
                  no_state fb (files (quarantined p w1) !! q) = true)
            ∧ (∀ q, q ≠ p → (∀ t, backupPath p t ≠ q) →
                    files (quarantined p w1) !! q = files w !! q)) as Hq.
  { intros w1 E. split.
    - intros q Hq.
      destruct (quarantined_lookup p w1 q) as [-> | [-> | [-> _]]];
        rewrite ?E; done.
    - intros q H1 H2. rewrite quarantined_other by done. by rewrite E. }
  destruct (files w !! p) as [[[raw|bad]|c]|] eqn:E; simpl in Hn.
  - apply negb_true_iff in Hn.
    destruct (normalizeState_cases raw fb (add_log (FsRead p) w))
      as [(-> & _)|[(-> & _)|(h & u & w2 & _ & _ & _ & _ & _ & Hy)]];
      [| |congruence].
    + eexists. split; [done|]. split; done.
    + eexists. split; [done|]. by apply Hq.
  - eexists. split; [done|]. by apply Hq.
  - rewrite Hn. eexists. split; [done|]. split; done.
  - eexists. split; [done|]. split; done.
Qed.

Lemma load_loop_none cands fb w :
  (∀ q, q ∈ cands → no_state fb (files w !! q) = true) →
  ∃ w', load_loop cands fb w = (Ok VNull, w').
Proof.
  revert w. induction cands as [|c cands IH]; intros w Hall; simpl.
  { by eexists. }
  destruct (safeReadState_no_state c fb w) as (w1 & R & Hinv & _).
  { apply Hall, elem_of_cons. by left. }
  unfold bind. rewrite R. simpl. apply IH.
  intros q Hq. apply Hinv, Hall, elem_of_cons. by right.
Qed.

Lemma load_loop_skip pre c fb w :
  (∀ q, q ∈ pre → no_state fb (files w !! q) = true) →
  (∀ q t, q ∈ pre → backupPath q t ≠ c) →
  no_state fb (files w !! c) = false →
  ∃ w1, (∀ rest, load_loop (pre ++ rest) fb w = load_loop rest fb w1)
    ∧ files w1 !! c = files w !! c.
Proof.
  revert w. induction pre as [|q pre IH]; intros w Hpre Hb Hc; simpl.
  { by exists w. }
  destruct (safeReadState_no_state q fb w) as (w1 & R & Hinv & Hoth).
  { apply Hpre, elem_of_cons. by left. }
  assert (q ≠ c) as Hqc.
  { intros ->. rewrite Hpre in Hc; [done|]. apply elem_of_cons. by left. }
  assert (files w1 !! c = files w !! c) as Ec.
  { apply Hoth; [done|]. intros t. apply Hb, elem_of_cons. by left. }
  destruct (IH w1) as (w2 & Hskip & Ec2).
  - intros q' Hq'. apply Hinv, Hpre, elem_of_cons. by right.
  - intros q' t Hq'. apply Hb, elem_of_cons. by right.
  - by rewrite Ec.
  - exists w2. split; [|congruence].
    intros rest. unfold bind. rewrite R. simpl. apply Hskip.
Qed.

Lemma load_loop_hit c post fb w raw :
  files w !! c = Some (File (JsonText raw)) → yields_state fb raw = true →
  ∃ st w', load_loop (c :: post) fb w = (Ok st, w') ∧ st ≠ VNull
    ∧ normalizeState raw fb (add_log (FsRead c) w) = (Ok st, w').
Proof.
  intros Hc Hy. simpl. unfold bind. rewrite safeReadState_run, Hc. simpl.
  destruct (normalizeState_cases raw fb (add_log (FsRead c) w))
    as [(_ & E & _)|[(_ & E & _)|(h & u & w2 & _ & _ & _ & _ & -> & _)]];
    [congruence|congruence|].
  simpl. eexists _, _. split; [done|]. split; done.
Qed.

Lemma push_legacy_spec host nh acc dirs :
  push_legacy host nh acc dirs
  = acc ++ map (λ d, stateFilePath host d nh) (usable_dirs dirs).
Proof.
  revert acc. induction dirs as [|x dirs IH]; intros acc; simpl.
  { by rewrite app_nil_r. }
  destruct x; simpl; try apply IH.
  destruct s; simpl; [apply IH|]. rewrite IH. by rewrite <- app_assoc.
Qed.

Lemma last_char_append s t : t ≠ "" → last_char (s +:+ t) = last_char t.
Proof.
  intros Ht. induction s as [|c s IH]; [done|].
  change (last_char (String c (s +:+ t)) = last_char t).
  destruct (s +:+ t) eqn:E; [|exact IH].
  destruct s; [by subst|done].
Qed.

Lemma append_assoc (a b c : string) : (a +:+ b) +:+ c = a +:+ b +:+ c.
Proof.
  induction a as [|x a IH]; [reflexivity|].
  change (String x ((a +:+ b) +:+ c) = String x (a +:+ b +:+ c)). by f_equal.
Qed.

Lemma pretty_N_go_last (x : N) s :
  s ≠ "" → last_char (pretty_N_go x s) = last_char s.
Proof.
  revert s. induction (N.lt_wf_0 x) as [x _ IH]; intros s Hs.
  destruct (decide (x = 0)%N) as [->|Hx]; [by rewrite pretty_N_go_0|].
  rewrite pretty_N_go_step by lia. rewrite IH.
  - by destruct s.
  - apply N.div_lt; lia.
  - done.
Qed.

Lemma pretty_N_char_digit (x : N) : pretty_N_char x ≠ "n"%char.
Proof. unfold pretty_N_char. by repeat case_match. Qed.

Lemma pretty_N_last (x : N) :
  ∃ d, last_char (pretty x) = Some d ∧ d ≠ "n"%char.
Proof.
  unfold pretty, pretty_N. case_decide as Hx; [by exists "0"%char|].
  rewrite pretty_N_go_step by lia. rewrite pretty_N_go_last by done.
  eexists. split; [done|apply pretty_N_char_digit].
Qed.

Lemma pretty_Z_last (t : Z) : ∃ d, last_char (pretty t) = Some d ∧ d ≠ "n"%char.
Proof.
  destruct t as [|p|p]; unfold pretty, pretty_Z.
  - by exists "0"%char.
  - apply pretty_N_last.
  - destruct (pretty_N_last (Npos p)) as (d & Hd & Hn).
    exists d. split; [|done]. unfold pretty, pretty_positive.
    rewrite last_char_append; [done|]. intros E. by rewrite E in Hd.
Qed.

Lemma backupPath_not_json q t pre : backupPath q t ≠ pre +:+ ".json".
Proof.
  intros E. apply (f_equal last_char) in E. unfold backupPath in E.
  destruct (pretty_Z_last t) as (d & Hd & Hn).
  assert (pretty t ≠ "") as Hp by (intros E'; by rewrite E' in Hd).
  rewrite !last_char_append in E; try done.
  rewrite Hd in E. injection E as ->. done.
Qed.

Lemma posix_json_paths : json_paths posix.
Proof.
  intros dir handle. exists (dir +:+ "/" +:+ sanitizeHandleForPath handle).
  unfold stateFilePath. cbn [path_join posix join_slash].
  by rewrite !append_assoc.
Qed.

Lemma candidates_shape host dir nh legacy c :
  c ∈ stateReadCandidates host dir nh legacy →
  ∃ d, c = stateFilePath host d nh.
Proof.
  unfold stateReadCandidates.
  assert (c ∈ [stateFilePath host dir nh] → ∃ d, c = stateFilePath host d nh)
    as Hone.
  { intros Hc. apply elem_of_cons in Hc as [-> | Hc]; [by eexists|].
    by apply elem_of_nil in Hc. }
  destruct legacy; try exact Hone.
  rewrite push_legacy_spec. intros Hc.
  apply elem_of_app in Hc as [Hc|Hc]; [by apply Hone|].
  apply list_elem_of_fmap in Hc as (d & -> & _). by eexists.
Qed.

(** ** Corrupt files *)

(** C3. Reading a candidate whose text does not parse answers [null] and
    never throws; the file is renamed to the path followed by
    [.corrupt-] and the clock reading, after which the original path holds
    nothing, unless the rename fails, which is swallowed and leaves the files
    as they were.  The loop goes on with the later candidates, and the load
    returns [null] when no candidate yields a state. *)
Theorem C3_corrupt_file host handle o w p bad :
  normalizeHandle handle ≠ "" →
  let nh := normalizeHandle handle in
  let cands :=
    stateReadCandidates host (resolved_dir host (stateDir o) w) nh
      (js_or (legacyStateDirs o) (VArr [])) in
  p ∈ cands →
  files w !! p = Some (File (BadText bad)) →
  let bp := p +:+ ".corrupt-" +:+ pretty (clock w (ticks w)) in
  (∃ w', safeReadState p nh w = (Ok VNull, w')
     ∧ log w' = log w ++ [FsRead p; FsRename p bp]
     ∧ ((∀ c, files w !! bp ≠ Some (Fault c)) →
        files w' !! p = None ∧ files w' !! bp = Some (File (BadText bad)))
     ∧ ((∃ c, files w !! bp = Some (Fault c)) → files w' = files w)
     ∧ (∀ rest, load_loop (p :: rest) nh w = load_loop rest nh w')
     ∧ (∀ rest, cands = p :: rest →
          loadAgentAuthState host handle o w = load_loop rest nh w'))
  ∧ ((∀ q, q ∈ cands → no_state nh (files w !! q) = true) →
     ∃ w', loadAgentAuthState host handle o w = (Ok VNull, w')).
Proof.
  intros H nh cands Hin Hp bp. split.
  - exists (quarantined p (add_log (FsRead p) w)).
    assert (safeReadState p nh w
            = (Ok VNull, quarantined p (add_log (FsRead p) w))) as R
      by (by rewrite safeReadState_run, Hp).
    split; [exact R|].
    assert (bp ≠ p) as Hbp by apply backupPath_fresh.
    assert (∀ rest, load_loop (p :: rest) nh w
                    = load_loop rest nh (quarantined p (add_log (FsRead p) w)))
      as Hnext.
    { intros rest. cbn [load_loop]. unfold bind. by rewrite R. }
    split; [|split; [|split; [|split; [exact Hnext|]]]].
    + unfold quarantined. wsimpl. rewrite Hp.
      change (backupPath p (clock w (ticks w))) with bp.
      destruct (files w !! bp) as [[?|?]|]; wsimpl; by rewrite <- app_assoc.
    + intros Hnf. unfold quarantined. wsimpl. rewrite Hp.
      change (backupPath p (clock w (ticks w))) with bp.
      destruct (files w !! bp) as [[?|c]|] eqn:B; wsimpl;
        [|by destruct (Hnf c)|];
        (split; [rewrite lookup_insert_ne by done; apply lookup_delete_eq
                |apply lookup_insert_eq]).
    + intros [c Hc]. unfold quarantined. wsimpl. rewrite Hp.
      change (backupPath p (clock w (ticks w))) with bp. by rewrite Hc.
    + intros rest Hc. rewrite load_run by done. fold nh cands. rewrite Hc.
      apply Hnext.
  - intros Hall. rewrite load_run by done. by apply load_loop_none.
Qed.

Lemma C3_corrupt_file_witness :
  (∃ w', safeReadState "/d/bob.json" "bob" world_corrupt = (Ok VNull, w')
     ∧ log w' = [FsRead "/d/bob.json";
                 FsRename "/d/bob.json" "/d/bob.json.corrupt-1700000000000"]
     ∧ files w' !! "/d/bob.json" = None
     ∧ files w' !! "/d/bob.json.corrupt-1700000000000"
       = Some (File (BadText "{oops")))
  ∧ ∃ w', loadAgentAuthState posix (VStr "bob") opts_d world_corrupt
          = (Ok VNull, w').
Proof.
  assert (normalizeHandle (VStr "bob") ≠ "") as H by (vm_compute; congruence).
  assert ("/d/bob.json"
          ∈ stateReadCandidates posix (resolved_dir posix (stateDir opts_d) world_corrupt)
              (normalizeHandle (VStr "bob"))
              (js_or (legacyStateDirs opts_d) (VArr []))) as Hin
    by (vm_compute; apply elem_of_cons; by left).
  assert (files world_corrupt !! "/d/bob.json" = Some (File (BadText "{oops")))
    as Hp by (vm_compute; reflexivity).
  destruct (C3_corrupt_file posix (VStr "bob") opts_d world_corrupt
              "/d/bob.json" "{oops" H Hin Hp)
    as [(w' & R & L & Hren & _) Hnone].
  split.
  - exists w'. split; [exact R|]. split; [exact L|].
    apply Hren. intros c. vm_compute. discriminate.
  - apply Hnone. intros q Hq. vm_compute in Hq.
    apply elem_of_cons in Hq as [-> | Hq]; [|by apply elem_of_nil in Hq].
    vm_compute. reflexivity.
Defined.

(** ** The order of candidates *)

(** C5. For a handle that is not empty, [loadAgentAuthState] reads the
    primary path first and then one candidate for each legacy directory, in
    the order supplied (an entry that is no string, or is empty, gives no
    candidate).  On a host whose state file paths end in [.json], it returns
    the state of the first candidate that holds a file normalizing to a
    record, the earlier ones being missing, unparseable or not normalizing,
    whatever the later candidates hold; and it returns [null] when no
    candidate yields a state. *)
Theorem C5_first_match host handle o w :
  normalizeHandle handle ≠ "" →
  let nh := normalizeHandle handle in
  let dir := resolved_dir host (stateDir o) w in
  let cands :=
    stateReadCandidates host dir nh (js_or (legacyStateDirs o) (VArr [])) in
  loadAgentAuthState host handle o w = load_loop cands nh w
  ∧ (∀ dirs, legacyStateDirs o = VArr dirs →
       cands = stateFilePath host dir nh
               :: map (λ d, stateFilePath host d nh) (usable_dirs dirs))
  ∧ (∀ dirs : list string,
       legacyStateDirs o = VArr (map VStr dirs) → Forall (λ d, d ≠ "") dirs →
       cands = stateFilePath host dir nh
               :: map (λ d, stateFilePath host d nh) dirs)
  ∧ ((∀ dirs, legacyStateDirs o ≠ VArr dirs) →
       cands = [stateFilePath host dir nh])
  ∧ (json_paths host →
     ∀ pre c post raw,
       cands = pre ++ c :: post →
       (∀ q, q ∈ pre → no_state nh (files w !! q) = true) →
       files w !! c = Some (File (JsonText raw)) →
       yields_state nh raw = true →
       ∃ st w' w0,
         loadAgentAuthState host handle o w = (Ok st, w')
         ∧ st ≠ VNull
         ∧ normalizeState raw nh w0 = (Ok st, w')
         ∧ ∀ post', load_loop (pre ++ c :: post') nh w = (Ok st, w'))
  ∧ ((∀ q, q ∈ cands → no_state nh (files w !! q) = true) →
     ∃ w', loadAgentAuthState host handle o w = (Ok VNull, w')).
Proof.
  intros H nh dir cands.
  assert (loadAgentAuthState host handle o w = load_loop cands nh w) as L
    by (by rewrite load_run).
  assert (∀ dirs, legacyStateDirs o = VArr dirs →
            cands = stateFilePath host dir nh
                    :: map (λ d, stateFilePath host d nh) (usable_dirs dirs))
    as Hord.
  { intros dirs Hd. subst cands. rewrite Hd. simpl. apply push_legacy_spec. }
  split; [exact L|]. split; [exact Hord|]. split; [|split; [|split]].
  - intros dirs Hd Hne. rewrite (Hord _ Hd). do 2 f_equal.
    clear Hd. induction Hne as [|d dirs Hd _ IH]; [done|].
    simpl. apply nonempty_true in Hd. rewrite Hd. by rewrite IH.
  - intros Hno. subst cands. unfold stateReadCandidates, js_or.
    destruct (legacyStateDirs o) as [| |b|n|s|xs|ps]; simpl; try done.
    + by destruct b.
    + by destruct (negb (n =? 0)).
    + by destruct s.
    + by destruct (Hno xs).
  - intros Hjson pre c post raw Hc Hpre Hf Hy. rewrite L, Hc.
    assert (∀ q t, backupPath q t ≠ c) as Hb.
    { destruct (candidates_shape host dir nh
                  (js_or (legacyStateDirs o) (VArr [])) c) as [d ->].
      { fold cands. rewrite Hc. apply elem_of_app. right.
        apply elem_of_cons. by left. }
      intros q t. destruct (Hjson d nh) as [pre' ->].
      apply backupPath_not_json. }
    destruct (load_loop_skip pre c nh w) as (w1 & Hskip & Ec); [done|auto| |].
    { rewrite Hf. simpl. by rewrite Hy. }
    rewrite <- Ec in Hf.
    destruct (load_loop_hit c post nh w1 raw Hf Hy) as (st & w' & Hl & Hst & N).
    exists st, w', (add_log (FsRead c) w1).
    rewrite Hskip. split; [exact Hl|]. split; [exact Hst|]. split; [exact N|].
    intros post'. rewrite Hskip.
    destruct (load_loop_hit c post' nh w1 raw Hf Hy) as (st' & w'' & Hl' & _ & N').
    rewrite Hl'. congruence.
  - intros Hall. rewrite L. by apply load_loop_none.
Qed.

Lemma C5_first_match_witness :
  stateReadCandidates posix "/d" "bob" (legacyStateDirs opts_legacy)
  = ["/d/bob.json"; "/a/bob.json"; "/b/bob.json"]
  ∧ ∃ st w', loadAgentAuthState posix (VStr "bob") opts_legacy world_legacy
             = (Ok st, w')
      ∧ get st "handle" = VStr "alice" ∧ get st "apiKey" = VStr "k1".
Proof.
  assert (normalizeHandle (VStr "bob") ≠ "") as H by (vm_compute; congruence).
  destruct (C5_first_match posix (VStr "bob") opts_legacy world_legacy H)
    as (_ & Hord & _ & _ & Hhit & _).
  split; [exact (Hord _ eq_refl)|].
  destruct (Hhit posix_json_paths ["/d/bob.json"; "/a/bob.json"] "/b/bob.json"
              [] raw_other_handle) as (st & w' & w0 & L & Hst & N & _).
  - vm_compute. reflexivity.
  - intros q Hq. repeat (apply elem_of_cons in Hq as [-> | Hq]);
      [..|by apply elem_of_nil in Hq]; vm_compute; reflexivity.
  - vm_compute. reflexivity.
  - vm_compute. reflexivity.
  - exists st, w'. split; [exact L|].
    apply normalizeState_record in N as (h & u & Hh & _ & _ & _ & ->);
      [|exact Hst].
    vm_compute in Hh. injection Hh as <-. split; reflexivity.
Defined.

(** ** The fields of a normalized record *)










(** ** Valid states *)

Lemma JsVal_nested_ind (P : JsVal → Prop) :
  P VUndef → P VNull → (∀ b, P (VBool b)) → (∀ n, P (VNum n)) →
  (∀ s, P (VStr s)) →
  (∀ xs, Forall P xs → P (VArr xs)) →
  (∀ ps, Forall (λ kv, P kv.2) ps → P (VObj ps)) →
  ∀ v, P v.
Proof.
  intros Hu Hn Hb Hz Hs Ha Ho. fix IH 1.
  intros [ | |b|n|s|xs|ps];
    [exact Hu|exact Hn|apply Hb|apply Hz|apply Hs| |].
  - apply Ha. induction xs as [|x xs IHxs]; constructor; [apply IH|exact IHxs].
  - apply Ho. induction ps as [|kv ps IHps]; constructor; [apply IH|exact IHps].
Qed.

Lemma json_image_id v : is_json v = true → json_image v = v.
Proof.
  induction v as [ | |b|n|s|xs IH|ps IH] using JsVal_nested_ind; try done.
  - simpl. intros Hj. f_equal.
    induction IH as [|x l Hx _ IHl]; [done|].
    apply andb_true_iff in Hj as [Hj1 Hj2]. by rewrite Hx, IHl.
  - simpl. intros Hj. f_equal.
    induction IH as [|[k x] l Hx _ IHl]; [done|].
    apply andb_true_iff in Hj as [Hj1 Hj2]. simpl in Hx.
    rewrite Hx, IHl by done. by destruct x.
Qed.

Lemma is_string_inv v : is_string v = true → ∃ s, v = VStr s.
Proof. destruct v; try done. by eexists. Qed.

Lemma is_filled_string_inv v :
  is_filled_string v = true → ∃ s, v = VStr s ∧ s ≠ "".
Proof.
  destruct v; try done. simpl. intros H%nonempty_true. by eexists.
Qed.

Lemma is_jwk_inv v :
  is_jwk v = true → (v = VNull ∨ truthy v = true) ∧ json_image v = v.
Proof.
  destruct v; try done; intros Hj.
  - split; [by left|done].
  - split; [by right|]. by apply json_image_id.
Qed.

Lemma or_string_default s :
  js_or (js_or (VStr s) VUndef) (VStr "") = VStr s.
Proof. by destruct s. Qed.

Lemma or_jwk_default v :
  v = VNull ∨ truthy v = true → js_or (js_or v VUndef) VNull = v.
Proof.
  unfold js_or. intros [-> | T]; [done|]. rewrite T. cbn iota. by rewrite T.
Qed.

Lemma valid_state_no_other s k :
  valid_state s = true → k ∉ field_names → get s k = VUndef.
Proof.
  destruct s as [ | | | | | |ps]; try done. simpl.
  rewrite !andb_true_iff. intros ((((((((((Hk&_)&_)&_)&_)&_)&_)&_)&_)&_)&_) Hn.
  induction ps as [|[k' x] ps IH]; [done|]. simpl in *.
  apply andb_true_iff in Hk as [Hk1 Hk2].
  destruct (String.eqb_spec k k') as [->|Hne].
  - apply bool_decide_eq_true in Hk1. done.
  - by apply IH.
Qed.

(** Normalizing a valid state keeps its fields *)
Lemma valid_state_normalized s h u :
  valid_state s = true → normalized_record s h u = canonical s h u.
Proof.
  intros Hv.
  assert (∀ k, k ∉ field_names → get s k = VUndef) as Hno
    by (intros k; by apply valid_state_no_other).
  destruct s as [ | | | | | |ps]; try done.
  unfold valid_state in Hv. rewrite !andb_true_iff in Hv.
  destruct Hv as ((((((((((_&_)&Ha)&Hb)&Hc)&Hd)&He)&Hf)&_)&Hg)&Hh).
  apply is_string_inv in Ha as [a Ha], Hb as [b Hb], Hc as [c Hc],
    Hg as [g Hg], Hh as [i Hi].
  apply is_jwk_inv in Hd as [Hd _], He as [He _].
  apply is_filled_string_inv in Hf as (f & Hf & Hfne).
  unfold normalized_record, canonical.
  rewrite !(Hno "api_key"), !(Hno "public_key_pem"), !(Hno "private_key_pem"),
    !(Hno "public_jwk"), !(Hno "private_jwk"), !(Hno "last_provider"),
    !(Hno "provider"), !(Hno "base_url"), !(Hno "verification_provider")
    by (apply (bool_decide_unpack _); vm_compute; exact I).
  rewrite (or_jwk_default _ Hd), (or_jwk_default _ He).
  rewrite Ha, Hb, Hc, Hf, Hg, Hi, !or_string_default.
  destruct f; [done|reflexivity].
Qed.

Lemma canonical_valid s h u :
  valid_state s = true → trim h ≠ "" → is_filled_string u = true →
  valid_state (canonical s h u) = true.
Proof.
  intros Hv Hh Hu.
  destruct s as [ | | | | | |ps]; try done.
  unfold valid_state in Hv. rewrite !andb_true_iff in Hv.
  destruct Hv as ((((((((((_&_)&Ha)&Hb)&Hc)&Hd)&He)&Hf)&_)&Hg)&Hh').
  apply nonempty_true in Hh.
  unfold valid_state, canonical.
  repeat match goal with
         | |- _ && _ = true => apply andb_true_intro; split
         end;
    [reflexivity|exact Hh|exact Ha|exact Hb|exact Hc|exact Hd|exact He
    |exact Hf|exact Hu|exact Hg|exact Hh'].
Qed.

Lemma canonical_json s h u :
  valid_state s = true → is_string u = true →
  json_image (canonical s h u) = canonical s h u.
Proof.
  intros Hv Hu.
  destruct s as [ | | | | | |ps]; try done.
  unfold valid_state in Hv. rewrite !andb_true_iff in Hv.
  destruct Hv as ((((((((((_&_)&Ha)&Hb)&Hc)&Hd)&He)&Hf)&_)&Hg)&Hh).
  apply is_string_inv in Ha as [a Ha], Hb as [b Hb], Hc as [c Hc],
    Hg as [g Hg], Hh as [i Hi], Hu as [t ->].
  apply is_jwk_inv in Hd as [Hd1 Hd], He as [He1 He].
  apply is_filled_string_inv in Hf as (f & Hf & Hfne).
  unfold canonical. rewrite json_image_obj, json_props_defined.
  - cbn [map fst snd]. rewrite Hd, He, Ha, Hb, Hc, Hf, Hg, Hi. reflexivity.
  - rewrite Ha, Hb, Hc, Hf, Hg, Hi. repeat constructor; cbn [snd]; try done.
    + intros E. rewrite E in Hd1. by destruct Hd1.
    + intros E. rewrite E in He1. by destruct He1.
Qed.

Lemma canonical_again s h u :
  canonical (canonical s h u) h u = canonical s h u.
Proof. reflexivity. Qed.

Lemma canonical_get s h u k :
  valid_state s = true → k ≠ "handle" → k ≠ "updatedAt" →
  get (canonical s h u) k = get s k.
Proof.
  intros Hv H1 H2.
  destruct (decide (k ∈ field_names)) as [Hin|Hout].
  - unfold field_names in Hin.
    repeat (apply elem_of_cons in Hin as [-> | Hin]);
      [..|by apply elem_of_nil in Hin]; done.
  - rewrite (valid_state_no_other s k) by done.
    unfold field_names in Hout. unfold canonical, get. simpl.
    repeat (apply not_elem_of_cons in Hout as [?Hk Hout]).
    repeat match goal with
           | Hk : k ≠ _ |- _ => apply String.eqb_neq in Hk; rewrite Hk; clear Hk
           end.
    done.
Qed.

Lemma valid_state_normalizeState s fb w :
  valid_state s = true →
  ∃ hs, get s "handle" = VStr hs
    ∧ normalizeState s fb w
      = (Ok (canonical s (trim hs) (get s "updatedAt")), w).
Proof.
  intros Hv.
  assert (∃ hs, get s "handle" = VStr hs ∧ trim hs ≠ "") as (hs & Hs & Hne).
  { destruct s as [ | | | | | |ps]; try done.
    unfold valid_state in Hv. rewrite !andb_true_iff in Hv.
    destruct Hv as ((((((((((_&Hh)&_)&_)&_)&_)&_)&_)&_)&_)&_).
    destruct (get (VObj ps) "handle") as [ | | | |hs| | ]; try done.
    exists hs. split; [done|]. by apply nonempty_true. }
  assert (hs ≠ "") as Hne' by (intros ->; done).
  assert (∃ t, get s "updatedAt" = VStr t ∧ t ≠ "") as (t & Ht & Htne).
  { destruct s as [ | | | | | |ps]; try done.
    unfold valid_state in Hv. rewrite !andb_true_iff in Hv.
    destruct Hv as ((((((((((_&_)&_)&_)&_)&_)&_)&_)&Hu)&_)&_).
    by apply is_filled_string_inv. }
  exists hs. split; [done|].
  assert (derived_handle s fb = Some (trim hs)) as Hd
    by (by apply derived_handle_stored).
  assert (truthy s && is_object_type s = true) as Ho by (by destruct s).
  destruct (normalizeState_cases s fb w)
    as [(_ & _ & [E|E])|[(_ & _ & _ & E)|(h & u & w' & _ & Hh & _ & Hu & -> & _)]];
    try congruence.
  assert (h = trim hs) as -> by congruence.
  rewrite valid_state_normalized by done.
  destruct (or_nowIso_cases (js_or (get s "updatedAt") (get s "updated_at")) w)
    as [[_ E]|[T _]].
  - rewrite E in Hu. injection Hu as <- <-.
    unfold js_or. rewrite Ht, truthy_str by done. done.
  - unfold js_or in T. rewrite Ht, truthy_str in T by done.
    rewrite truthy_str in T by done. done.
Qed.

(** ** Save, then load *)

(** C1. For a handle that is not empty and a valid state, a load that
    follows a successful save under the same state directory, with no write
    in between, returns a record that agrees with the state on every field
    but two: its [handle] is the trimmed handle of the call, and its
    [updatedAt] is the time the save read from the clock. *)
Theorem C1_save_then_load host handle s o o' w w1 w2 :
  normalizeHandle handle ≠ "" →
  valid_state s = true →
  saveAgentAuthState host handle s o w = (Ok tt, w1) →
  files w2 = files w1 → env_dir w2 = env_dir w1 →
  stateDir o' = stateDir o →
  ∃ st w3,
    loadAgentAuthState host handle o' w2 = (Ok st, w3)
    ∧ get st "handle" = VStr (normalizeHandle handle)
    ∧ get st "updatedAt" = VStr (toISOString (clock w (ticks w)))
    ∧ (∀ k, k ≠ "handle" → k ≠ "updatedAt" → get st k = get s k)
    ∧ well_formed st
    ∧ files w3 = files w2.
Proof.
  intros H Hv S Ef Ee Eo.
  set (nh := normalizeHandle handle) in *.
  set (ts := VStr (toISOString (clock w (ticks w)))).
  set (p := stateFilePath host (resolved_dir host (stateDir o) w) nh).
  assert (trim nh = nh) as Htrim by apply normalizeHandle_trimmed.
  assert (is_filled_string ts = true) as Hts.
  { apply nonempty_true, toISOString_nonempty. }
  assert (valid_state (canonical s nh ts) = true) as Hrec.
  { apply canonical_valid; [done|by rewrite Htrim|done]. }
  (* what the save has written *)
  assert (files w1 = <[p := File (JsonText (canonical s nh ts))]> (files w)
          ∧ env_dir w1 = env_dir w) as [Hf1 He1].
  { apply save_inv in S as (n & w0 & N & -> & _); [|done]. fold nh p in N |- *.
    destruct (valid_state_normalizeState s nh w Hv) as (hs & Hs & N').
    rewrite N' in N. injection N as <- <-. wsimpl. split; [|done].
    do 2 f_equal. unfold JSON_stringify_nl. f_equal.
    rewrite <- (canonical_json s nh ts) by done.
    rewrite <- (valid_state_normalized s nh ts) by done.
    rewrite <- (valid_state_normalized s (trim hs) (get s "updatedAt")) by done.
    reflexivity. }
  (* what the load reads *)
  rewrite load_run by done. fold nh.
  rewrite (resolved_dir_env host (stateDir o') w w2) by congruence. rewrite Eo.
  destruct (candidates_head host (resolved_dir host (stateDir o) w) nh
              (js_or (legacyStateDirs o') (VArr []))) as (rest & -> & _).
  fold p.
  assert (files w2 !! p = Some (File (JsonText (canonical s nh ts)))) as Hp
    by (by rewrite Ef, Hf1, lookup_insert_eq).
  destruct (valid_state_normalizeState (canonical s nh ts) nh
              (add_log (FsRead p) w2) Hrec) as (hs & Hs & N).
  injection Hs as <-. rewrite Htrim in N.
  change (get (canonical s nh ts) "updatedAt") with ts in N.
  rewrite canonical_again in N.
  exists (canonical s nh ts), (add_log (FsRead p) w2).
  split; [|split; [done|split; [done|split; [|split; [|done]]]]].
  - cbn [load_loop]. unfold bind. rewrite safeReadState_run, Hp. cbn zeta.
    rewrite N. reflexivity.
  - intros k Hk1 Hk2. by apply canonical_get.
  - rewrite <- (valid_state_normalized s nh ts) by done.
    apply normalized_record_well_formed; [done|done|by apply truthy_iso].
Qed.

Lemma C1_save_then_load_witness :
  ∃ st w3,
    loadAgentAuthState posix (VStr " bob ") opts_a
      (snd (saveAgentAuthState posix (VStr " bob ") state_bob opts_d (world0 ∅)))
    = (Ok st, w3)
    ∧ get st "handle" = VStr "bob"
    ∧ get st "updatedAt" = VStr "2023-11-14T22:13:20.000Z"
    ∧ get st "apiKey" = VStr "sk-1"
    ∧ get st "publicKeyJwk"
      = VObj [("kty", VStr "OKP"); ("x", VArr [VNum 1; VNull])].
Proof.
  assert (normalizeHandle (VStr " bob ") ≠ "") as H by (vm_compute; congruence).
  assert (valid_state state_bob = true) as Hv by (vm_compute; reflexivity).
  destruct (saveAgentAuthState posix (VStr " bob ") state_bob opts_d (world0 ∅))
    as [r w1] eqn:S.
  assert (r = Ok tt) as -> by (apply (f_equal fst) in S; vm_compute in S; congruence).
  destruct (C1_save_then_load posix (VStr " bob ") state_bob opts_d opts_a
              (world0 ∅) w1 w1 H Hv S eq_refl eq_refl eq_refl)
    as (st & w3 & L & Hh & Hu & Hk & _).
  exists st, w3. split; [exact L|]. split; [exact Hh|]. split; [exact Hu|].
  split; (rewrite Hk; [reflexivity|discriminate|discriminate]).
Defined.

(** ** What a save leaves for a load *)

Lemma load_stored host handle o w rec t :
  normalizeHandle handle ≠ "" →
  let nh := normalizeHandle handle in
  let p := stateFilePath host (resolved_dir host (stateDir o) w) nh in
  files w !! p = Some (File (JsonText rec)) →
  truthy rec && is_object_type rec = true →
  get rec "handle" = VStr nh → get rec "updatedAt" = VStr t → t ≠ "" →
  loadAgentAuthState host handle o w
  = (Ok (normalized_record rec nh (VStr t)), add_log (FsRead p) w).
Proof.
  intros H nh p Hp Ho Hh Hu Ht. rewrite load_run by done. fold nh.
  destruct (candidates_head host (resolved_dir host (stateDir o) w) nh
              (js_or (legacyStateDirs o) (VArr []))) as (rest & -> & _).
  fold p. cbn [load_loop]. unfold bind. rewrite safeReadState_run, Hp.
  cbn zeta.
  assert (derived_handle rec nh = Some nh) as Hd.
  { rewrite (derived_handle_stored rec nh nh) by done.
    f_equal. apply normalizeHandle_trimmed. }
  destruct (normalizeState_cases rec nh (add_log (FsRead p) w))
    as [(_ & _ & [E|E])|[(_ & _ & _ & E)|(h' & u & w2 & _ & Hh' & _ & Hu' & -> & _)]];
    try congruence.
  { rewrite Hd in E. by injection E. }
  assert (h' = nh) as -> by congruence.
  unfold js_or in Hu'. rewrite Hu, truthy_str in Hu' by done.
  unfold or_nowIso in Hu'. rewrite truthy_str in Hu' by done.
  injection Hu' as <- <-. done.
Qed.

Lemma written_record_stored state nh t :
  t ≠ "" →
  truthy (written_record state nh (VStr t))
  && is_object_type (written_record state nh (VStr t)) = true
  ∧ get (written_record state nh (VStr t)) "handle" = VStr nh
  ∧ get (written_record state nh (VStr t)) "updatedAt" = VStr t.
Proof.
  intros Ht. unfold written_record. destruct (yields_state nh state); [|done].
  unfold normalized_record at 1 2 3 4.
  rewrite json_image_obj, json_props_defined
    by (apply (normalized_record_defined state nh (VStr t)); by apply truthy_str).
  done.
Qed.

Lemma save_then_load host handle state o o' w w1 w2 :
  normalizeHandle handle ≠ "" →
  saveAgentAuthState host handle state o w = (Ok tt, w1) →
  files w2 = files w1 → env_dir w2 = env_dir w1 → stateDir o' = stateDir o →
  let nh := normalizeHandle handle in
  let t := toISOString (clock w (Nat.pred (ticks w1))) in
  let p := stateFilePath host (resolved_dir host (stateDir o) w) nh in
  loadAgentAuthState host handle o' w2
  = (Ok (normalized_record (written_record state nh (VStr t)) nh (VStr t)),
     add_log (FsRead p) w2).
Proof.
  intros H S Ef Ee Eo nh t p.
  destruct (save_record _ _ _ _ _ _ H S) as (w0 & ts & _ & -> & Ht & He & Hf & _).
  fold nh p in Hf.
  assert (Nat.pred (ticks w1) = ticks w0) as Hn by (by rewrite Ht).
  subst t. rewrite Hn.
  fold (written_record state nh (VStr (toISOString (clock w (ticks w0))))) in Hf.
  destruct (written_record_stored state nh (toISOString (clock w (ticks w0)))
              (toISOString_nonempty _)) as (Ho & Hh & Hu).
  assert (stateFilePath host (resolved_dir host (stateDir o') w2) nh = p) as Hp.
  { unfold p. rewrite Eo. f_equal. apply resolved_dir_env. congruence. }
  rewrite <- Hp.
  apply (load_stored host handle o' w2 _ _ H); try done.
  - fold nh. rewrite Hp, Ef, Hf. apply lookup_insert_eq.
  - apply toISOString_nonempty.
Qed.

(** ** Where the state lives *)

Lemma quarantined_log p w :
  log (quarantined p w)
  = log w ++ [FsRename p (backupPath p (clock w (ticks w)))].
Proof.
  unfold quarantined.
  destruct (files w !! p) as [[t|c]|]; [|done..].
  by destruct (files w !! backupPath p (clock w (ticks w))) as [[t'|c']|].
Qed.

Lemma safeReadState_log p fb w r w' :
  safeReadState p fb w = (r, w') → ∃ rest, log w' = log w ++ FsRead p :: rest.
Proof.
  rewrite safeReadState_run. cbn zeta.
  destruct (files w !! p) as [[[raw|bad]|c]|].
  - destruct (normalizeState raw fb (add_log (FsRead p) w)) as [[st|e] w2] eqn:N;
      intros [= <- <-];
      apply normalizeState_frame in N as [-> | ->].
    + by exists [].
    + by exists [].
    + rewrite quarantined_log. wsimpl. rewrite <- app_assoc. by eexists.
    + rewrite quarantined_log. wsimpl. rewrite <- app_assoc. by eexists.
  - intros [= <- <-]. rewrite quarantined_log. wsimpl.
    rewrite <- app_assoc. by eexists.
  - destruct (String.eqb c "ENOENT"); intros [= <- <-]; by exists [].
  - intros [= <- <-]. by exists [].
Qed.

Lemma load_loop_log cands fb w r w' :
  load_loop cands fb w = (r, w') → ∃ rest, log w' = log w ++ rest.
Proof.
  revert w. induction cands as [|c cands IH]; intros w; cbn [load_loop].
  { intros [= <- <-]. exists []. by rewrite app_nil_r. }
  unfold bind. destruct (safeReadState c fb w) as [[st|e] w1] eqn:R.
  - apply safeReadState_log in R as [rest1 E1].
    destruct (truthy st).
    + intros [= <- <-]. by eexists.
    + intros L. apply IH in L as [rest2 E2]. rewrite E2, E1, <- app_assoc.
      by eexists.
  - apply safeReadState_log in R as [rest1 E1]. intros [= <- <-]. by eexists.
Qed.

(** The first file system call of the loop of a load is the read of its
    first candidate *)
Lemma load_loop_head c cands fb w r w' :
  load_loop (c :: cands) fb w = (r, w') →
  ∃ rest, log w' = log w ++ FsRead c :: rest.
Proof.
  cbn [load_loop]. unfold bind.
  destruct (safeReadState c fb w) as [[st|e] w1] eqn:R;
    apply safeReadState_log in R as [rest1 E1].
  - destruct (truthy st).
    + intros [= <- <-]. by eexists.
    + intros L. apply load_loop_log in L as [rest2 E2].
      rewrite E2, E1, <- app_assoc. cbn [app]. by eexists.
  - intros [= <- <-]. by eexists.
Qed.

Lemma clear_loop_any cands deleted w r w' :
  clear_loop cands deleted w = (r, w') →
  (∃ rest, log w' = log w ++ rest)
  ∧ (∀ q, files w !! q = None → files w' !! q = None)
  ∧ (deleted = true → ∀ b, r = Ok b → b = true).
Proof.
  revert deleted w. induction cands as [|c cands IH]; intros deleted w.
  { cbn [clear_loop]. intros [= <- <-]. split; [|split].
    - exists []. by rewrite app_nil_r.
    - done.
    - intros -> b [= <-]. done. }
  rewrite clear_loop_cons, unlink_step. cbn zeta.
  assert (∀ d w1, log w1 = log w ++ [FsUnlink c] →
            (∀ q, files w !! q = None → files w1 !! q = None) →
            (deleted = true → d = true) →
            clear_loop cands d w1 = (r, w') →
            (∃ rest, log w' = log w ++ rest)
            ∧ (∀ q, files w !! q = None → files w' !! q = None)
            ∧ (deleted = true → ∀ b, r = Ok b → b = true)) as Hnext.
  { intros d w1 El Hf Hd L. apply IH in L as ([rest E] & Hf' & Hd').
    split; [|split].
    - rewrite E, El, <- app_assoc. by eexists.
    - intros q Hq. by apply Hf', Hf.
    - intros Hdel. by apply Hd', Hd. }
  destruct (files w !! c) as [[t|code]|] eqn:E.
  - apply Hnext; [done| |done]. intros q Hq. wsimpl.
    destruct (decide (c = q)) as [->|Hne];
      [apply lookup_delete_eq|by rewrite lookup_delete_ne].
  - destruct (String.eqb code "ENOENT"); [by apply Hnext|].
    intros [= <- <-]. split; [by eexists|]. split; [done|]. done.
  - by apply Hnext.
Qed.

(** The first file system call of the loop of a clear is the unlink of its
    first candidate; a file found there is gone afterwards, whatever happens
    with the later candidates *)
Lemma clear_loop_head c cands w r w' :
  clear_loop (c :: cands) false w = (r, w') →
  (∃ rest, log w' = log w ++ FsUnlink c :: rest)
  ∧ (is_file (files w !! c) = true →
     files w' !! c = None ∧ ∀ b, r = Ok b → b = true).
Proof.
  rewrite clear_loop_cons, unlink_step. cbn zeta.
  destruct (files w !! c) as [[t|code]|] eqn:E; cbn [is_file].
  - intros L. apply clear_loop_any in L as ([rest El] & Hf & Hd). wsimpl.
    split.
    + rewrite El, <- app_assoc. by eexists.
    + intros _. split; [apply Hf, lookup_delete_eq|by apply Hd].
  - destruct (String.eqb code "ENOENT").
    + intros L. apply clear_loop_any in L as ([rest El] & _). wsimpl.
      split; [|done]. rewrite El, <- app_assoc. by eexists.
    + intros [= <- <-]. split; [by eexists|done].
  - intros L. apply clear_loop_any in L as ([rest El] & _). wsimpl.
    split; [|done]. rewrite El, <- app_assoc. by eexists.
Qed.

(** C8. For a handle that is not empty, the storage path is
    [path.join(stateDir, sanitizedHandle + ".json")]: the sanitized handle is
    the trimmed handle with every slash and backslash replaced by an
    underscore; the directory is the trimmed per-call option when that is a
    string that is not blank, else the trimmed environment override when it
    is set, else the default directory under the home directory.  The four
    operations use this one path: [getAuthStateFilePath] returns it; the
    first file system call of a load is the read of it, and a state stored
    there is what the load returns, nothing else being read; the first call
    of a clear is the unlink of it, and a file found there is gone
    afterwards; a save that succeeds has written it, after which the path
    is still the same, a load returns the record under the handle from that
    one read, and a clear removes the file. *)
Theorem C8_state_location host handle o w :
  normalizeHandle handle ≠ "" →
  let nh := normalizeHandle handle in
  let dir := resolved_dir host (stateDir o) w in
  let p := path_join host [dir; sanitizeHandleForPath nh +:+ ".json"] in
  (∃ s, handle = VStr s ∧ nh = trim s)
  ∧ (String.length (sanitizeHandleForPath nh) = String.length nh
     ∧ ∀ i c, String.get i nh = Some c →
         String.get i (sanitizeHandleForPath nh)
         = Some (if bool_decide (c = "/"%char ∨ c = "\"%char) then "_"%char else c))
  ∧ ((∀ s, stateDir o = VStr s → trim s ≠ "" → dir = trim s)
     ∧ (∀ e, (∀ s, stateDir o = VStr s → trim s = "") →
          env_dir w = Some e → e ≠ "" → dir = trim e)
     ∧ ((∀ s, stateDir o = VStr s → trim s = "") →
          env_dir w = None ∨ env_dir w = Some "" →
          dir = path_join host
                  [homedir host; ".openclaw"; "contextoverflow"; "auth"]))
  ∧ getAuthStateFilePath host handle o w = (Ok p, w)
  ∧ (∃ r w' rest,
       loadAgentAuthState host handle o w = (r, w')
       ∧ log w' = log w ++ FsRead p :: rest)
  ∧ (∀ raw,
       files w !! p = Some (File (JsonText raw)) → yields_state nh raw = true →
       ∃ st w',
         loadAgentAuthState host handle o w = (Ok st, w')
         ∧ st ≠ VNull
         ∧ normalizeState raw nh (add_log (FsRead p) w) = (Ok st, w')
         ∧ log w' = log w ++ [FsRead p])
  ∧ (∃ r w' rest,
       clearAgentAuthState host handle o w = (r, w')
       ∧ log w' = log w ++ FsUnlink p :: rest
       ∧ (is_file (files w !! p) = true →
          files w' !! p = None ∧ ∀ b, r = Ok b → b = true))
  ∧ (∀ state w1,
       saveAgentAuthState host handle state o w = (Ok tt, w1) →
       (∃ text, log w1 = log w ++ [FsMkdir dir; FsWrite p text]
                ∧ files w1 = <[p := File text]> (files w))
       ∧ getAuthStateFilePath host handle o w1 = (Ok p, w1)
       ∧ (∃ st w2,
            loadAgentAuthState host handle o w1 = (Ok st, w2)
            ∧ get st "handle" = VStr nh
            ∧ log w2 = log w1 ++ [FsRead p])
       ∧ (∃ r w2,
            clearAgentAuthState host handle o w1 = (r, w2)
            ∧ files w2 !! p = None
            ∧ ∀ b, r = Ok b → b = true)).
Proof.
  intros H nh dir p.
  assert (∀ w0, env_dir w0 = env_dir w →
            ∃ rest,
              stateReadCandidates host (resolved_dir host (stateDir o) w0) nh
                (js_or (legacyStateDirs o) (VArr [])) = p :: rest) as Hcands.
  { intros w0 Ee. rewrite (resolved_dir_env host _ w w0) by done.
    destruct (candidates_head host dir nh (js_or (legacyStateDirs o) (VArr [])))
      as (rest & E & _).
    by exists rest. }
  assert (∀ w0, env_dir w0 = env_dir w →
            ∃ r w' rest,
              clearAgentAuthState host handle o w0 = (r, w')
              ∧ log w' = log w0 ++ FsUnlink p :: rest
              ∧ (is_file (files w0 !! p) = true →
                 files w' !! p = None ∧ ∀ b, r = Ok b → b = true)) as Hclear.
  { intros w0 Ee. rewrite clear_run by done. fold nh.
    destruct (Hcands w0 Ee) as [rest ->].
    destruct (clear_loop (p :: rest) false w0) as [r w'] eqn:C.
    apply clear_loop_head in C as ([rest' El] & Hgone).
    by exists r, w', rest'. }
  split; [|split; [|split; [|split; [|split; [|split; [|split]]]]]].
  - destruct handle; try done. by eexists.
  - split; [apply sanitize_length|].
    intros i c Hc. rewrite sanitize_get, Hc. simpl. f_equal.
    destruct (sanitize_char_spec c) as (_ & _ & H1 & H2).
    case_bool_decide as Hd; [by apply H1|].
    apply H2; intros ->; apply Hd; auto.
  - split; [|split].
    + intros s Hs Ht. subst dir. unfold resolved_dir, normalizeStateDir.
      rewrite Hs. apply nonempty_true in Ht. by rewrite Ht.
    + intros e Hs He Hne. subst dir. unfold resolved_dir, normalizeStateDir.
      apply nonempty_true in Hne. run_monad.
      destruct (stateDir o); rewrite ?He, ?Hne; try done.
      rewrite (Hs s eq_refl). simpl. by rewrite He, Hne.
    + intros Hs He. subst dir. unfold resolved_dir, normalizeStateDir. run_monad.
      destruct (stateDir o); try (destruct He as [-> | ->]; done).
      rewrite (Hs s eq_refl). simpl. destruct He as [-> | ->]; done.
  - by rewrite getPath_run.
  - rewrite load_run by done. fold nh.
    destruct (Hcands w eq_refl) as [rest ->].
    destruct (load_loop (p :: rest) nh w) as [r w'] eqn:L.
    apply load_loop_head in L as [rest' El]. by exists r, w', rest'.
  - intros raw Hp Hy. rewrite load_run by done. fold nh.
    destruct (Hcands w eq_refl) as [rest ->].
    destruct (load_loop_hit p rest nh w raw Hp Hy) as (st & w' & L & Hst & N).
    exists st, w'. split; [exact L|]. split; [exact Hst|]. split; [exact N|].
    apply normalizeState_frame in N as [-> | ->]; done.
  - by apply Hclear.
  - intros state w1 S.
    destruct (save_record _ _ _ _ _ _ H S) as (w0 & ts & _ & _ & _ & He & Hf & _).
    fold nh dir in Hf. change (stateFilePath host dir nh) with p in Hf.
    split; [|split; [|split]].
    + apply save_inv in S as (n & w2 & N & -> & _); [|done].
      eexists. split; [|reflexivity]. wsimpl.
      apply normalizeState_frame in N as [-> | ->]; wsimpl;
        by rewrite <- app_assoc.
    + rewrite getPath_run by done.
      by rewrite (resolved_dir_env host _ w w1).
    + rewrite (save_then_load host handle state o o w w1 w1 H S) by done.
      eexists _, _. split; [done|]. split; done.
    + destruct (Hclear w1 He) as (r & w2 & rest & C & _ & Hgone).
      exists r, w2. split; [exact C|]. apply Hgone.
      by rewrite Hf, lookup_insert_eq.
Qed.

Lemma C8_state_location_witness :
  let h := VStr " a/b\c " in
  let w_env := mkWorld ∅ (Some " /env/dir ") clock0 0 [] ∅ in
  (* the option, before the environment *)
  getAuthStateFilePath posix h (mkOptions (VStr " /srv/state ") VUndef) w_env
  = (Ok "/srv/state/a_b_c.json", w_env)
  (* a blank option: the environment *)
  ∧ getAuthStateFilePath posix h (mkOptions (VStr "  ") VUndef) w_env
    = (Ok "/env/dir/a_b_c.json", w_env)
  (* neither: the default directory *)
  ∧ getAuthStateFilePath posix h no_options (world0 ∅)
    = (Ok "/home/agent/.openclaw/contextoverflow/auth/a_b_c.json", world0 ∅)
  (* a save writes there; a load reads there; a clear unlinks there *)
  ∧ (∃ text w1,
       saveAgentAuthState posix h state_bob
         (mkOptions (VStr " /srv/state ") VUndef) w_env = (Ok tt, w1)
       ∧ log w1 = [FsMkdir "/srv/state"; FsWrite "/srv/state/a_b_c.json" text]
       ∧ files w1 = {[ "/srv/state/a_b_c.json" := File text ]}
       ∧ (∃ st w2,
            loadAgentAuthState posix h (mkOptions (VStr " /srv/state ") VUndef) w1
            = (Ok st, w2)
            ∧ get st "handle" = VStr "a/b\c"
            ∧ log w2 = log w1 ++ [FsRead "/srv/state/a_b_c.json"])
       ∧ (∃ r w2 rest,
            clearAgentAuthState posix h (mkOptions (VStr " /srv/state ") VUndef) w1
            = (r, w2)
            ∧ log w2 = log w1 ++ FsUnlink "/srv/state/a_b_c.json" :: rest
            ∧ files w2 !! "/srv/state/a_b_c.json" = None)).
Proof.
  intros h w_env.
  assert (normalizeHandle h ≠ "") as H by (vm_compute; congruence).
  split; [|split; [|split]].
  - pose proof (C8_state_location posix h
                  (mkOptions (VStr " /srv/state ") VUndef) w_env H)
      as (_ & _ & (Hopt & _ & _) & Hp & _).
    rewrite (Hopt " /srv/state " eq_refl) in Hp by (vm_compute; congruence).
    exact Hp.
  - pose proof (C8_state_location posix h (mkOptions (VStr "  ") VUndef) w_env H)
      as (_ & _ & (_ & Henv & _) & Hp & _).
    rewrite (Henv " /env/dir ") in Hp;
      [exact Hp|by intros s [= <-]|reflexivity|discriminate].
  - pose proof (C8_state_location posix h no_options (world0 ∅) H)
      as (_ & _ & (_ & _ & Hdef) & Hp & _).
    rewrite Hdef in Hp; [exact Hp|by intros s [=]|by left].
  - destruct (saveAgentAuthState posix h state_bob
                (mkOptions (VStr " /srv/state ") VUndef) w_env) as [r w1] eqn:S.
    assert (r = Ok tt) as ->
      by (apply (f_equal fst) in S; vm_compute in S; symmetry; exact S).
    pose proof (C8_state_location posix h
                  (mkOptions (VStr " /srv/state ") VUndef) w_env H)
      as (_ & _ & (Hopt & _ & _) & _ & _ & _ & _ & Hsave).
    destruct (Hsave state_bob w1 S)
      as ((text & El & Ef) & _ & (st & w2 & L & Hh & El2)
          & (rc & w3 & C & Hgone & _)).
    rewrite (Hopt " /srv/state " eq_refl) in El, Ef, El2, Hgone
      by (vm_compute; congruence).
    exists text, w1. split; [reflexivity|]. split; [exact El|].
    split; [rewrite Ef; apply insert_empty|].
    split; [by exists st, w2|].
    pose proof (C8_state_location posix h
                  (mkOptions (VStr " /srv/state ") VUndef) w1 H)
      as (_ & _ & (Hopt1 & _ & _) & _ & _ & _ & (rc' & w3' & rest & C' & El3 & _)
          & _).
    rewrite (Hopt1 " /srv/state " eq_refl) in El3 by (vm_compute; congruence).
    rewrite C in C'. injection C' as <- <-.
    by exists rc, w3, rest.
Defined.

(** * Further properties of the module *)

(** ** Normalizing twice *)

Lemma js_or_again a d : js_or (js_or (js_or a d) VUndef) d = js_or a d.
Proof.
  unfold js_or. destruct (truthy a) eqn:Ta.
  - by rewrite !Ta.
  - destruct (truthy d) eqn:Td; [by rewrite !Td|done].
Qed.

Lemma js_or_again2 a d :
  js_or (js_or (js_or (js_or a d) VUndef) VUndef) d = js_or a d.
Proof.
  unfold js_or. destruct (truthy a) eqn:Ta.
  - by rewrite !Ta.
  - destruct (truthy d) eqn:Td; [by rewrite !Td|done].
Qed.

Lemma normalized_record_again raw h u :
  normalized_record (normalized_record raw h u) h u = normalized_record raw h u.
Proof.
  set (st := normalized_record raw h u). unfold normalized_record at 1.
  repeat match goal with
         | |- context [get st ?k] =>
             let v := eval simpl in (get (normalized_record raw h u) k) in
             change (get st k) with v
         end.
  by rewrite !js_or_again, js_or_again2.
Qed.

(** X1. Normalization is idempotent: a record that [normalizeState] has
    produced normalizes to itself, under any fallback handle, and without
    reading the clock. *)
Theorem X1_normalize_idempotent raw fb w st w' fb' w2 :
  normalizeState raw fb w = (Ok st, w') → st ≠ VNull →
  normalizeState st fb' w2 = (Ok st, w2).
Proof.
  intros N Hst.
  apply normalizeState_record in N as (h & u & _ & Hh & Ht & Hu & ->); [|done].
  assert (truthy u = true) as Tu by (by eapply or_nowIso_truthy).
  destruct (normalizeState_cases (normalized_record raw h u) fb' w2)
    as [(_ & _ & [E|E])|[(_ & _ & _ & E)|(h' & u' & w3 & _ & Hh' & _ & Hu' & -> & _)]].
  - done.
  - rewrite (derived_handle_stored _ fb' h) in E by done. rewrite Ht in E.
    by injection E.
  - by rewrite (derived_handle_stored _ fb' h) in E.
  - rewrite (derived_handle_stored _ fb' h) in Hh' by done. rewrite Ht in Hh'.
    injection Hh' as <-.
    change (js_or (get (normalized_record raw h u) "updatedAt")
              (get (normalized_record raw h u) "updated_at"))
      with (js_or u VUndef) in Hu'.
    unfold js_or in Hu'. rewrite Tu in Hu'. unfold or_nowIso in Hu'.
    rewrite Tu in Hu'. injection Hu' as <- <-.
    by rewrite normalized_record_again.
Qed.

Lemma X1_normalize_idempotent_witness :
  normalizeState st_both_names "other" (world0 ∅)
  = (Ok st_both_names, world0 ∅).
Proof.
  destruct (normalizeState raw_both_names "" (world0 ∅)) as [r w'] eqn:N.
  assert (r = Ok st_both_names) as ->
    by (apply (f_equal fst) in N; vm_compute in N; symmetry; exact N).
  apply (X1_normalize_idempotent raw_both_names "" (world0 ∅)
           st_both_names w' "other" (world0 ∅) N).
  discriminate.
Defined.

(** ** Handles that address the same file *)

(** X2. A handle and its trimmed form are the same handle to every
    operation: the path, the load, the save and the clear of one are those
    of the other. *)
Theorem X2_trimmed_handle host handle state o w :
  getAuthStateFilePath host (VStr (normalizeHandle handle)) o w
  = getAuthStateFilePath host handle o w
  ∧ loadAgentAuthState host (VStr (normalizeHandle handle)) o w
    = loadAgentAuthState host handle o w
  ∧ saveAgentAuthState host (VStr (normalizeHandle handle)) state o w
    = saveAgentAuthState host handle state o w
  ∧ clearAgentAuthState host (VStr (normalizeHandle handle)) o w
    = clearAgentAuthState host handle o w.
Proof.
  unfold getAuthStateFilePath, loadAgentAuthState, saveAgentAuthState,
    clearAgentAuthState.
  change (normalizeHandle (VStr (normalizeHandle handle)))
    with (trim (normalizeHandle handle)).
  by rewrite normalizeHandle_trimmed.
Qed.

Lemma is_ws_sanitize c : is_ws (sanitize_char c) = is_ws c.
Proof.
  unfold sanitize_char.
  destruct (Ascii.eqb_spec c "/") as [->|_]; [done|].
  destruct (Ascii.eqb_spec c "\") as [->|_]; done.
Qed.

Lemma sanitize_char_idem c : sanitize_char (sanitize_char c) = sanitize_char c.
Proof.
  unfold sanitize_char at 2.
  destruct (Ascii.eqb_spec c "/") as [->|H1]; [done|].
  destruct (Ascii.eqb_spec c "\") as [->|H2]; [done|].
  cbn [orb]. unfold sanitize_char.
  apply Ascii.eqb_neq in H1, H2. by rewrite H1, H2.
Qed.

Lemma sanitize_idem s :
  sanitizeHandleForPath (sanitizeHandleForPath s) = sanitizeHandleForPath s.
Proof.
  induction s as [|c r IH]; [done|].
  cbn [sanitizeHandleForPath]. by rewrite sanitize_char_idem, IH.
Qed.

Lemma trim_start_sanitize s :
  trim_start (sanitizeHandleForPath s) = sanitizeHandleForPath (trim_start s).
Proof.
  induction s as [|c r IH]; [done|].
  cbn [sanitizeHandleForPath trim_start]. rewrite is_ws_sanitize.
  by destruct (is_ws c).
Qed.

Lemma trim_end_sanitize s :
  trim_end (sanitizeHandleForPath s) = sanitizeHandleForPath (trim_end s).
Proof.
  induction s as [|c r IH]; [done|].
  cbn [sanitizeHandleForPath trim_end]. rewrite IH, is_ws_sanitize.
  destruct (trim_end r); cbn [sanitizeHandleForPath]; [|done].
  by destruct (is_ws c).
Qed.

Lemma trim_sanitize s :
  trim (sanitizeHandleForPath s) = sanitizeHandleForPath (trim s).
Proof. unfold trim. by rewrite trim_start_sanitize, trim_end_sanitize. Qed.

Lemma nonempty_sanitize s : nonempty (sanitizeHandleForPath s) = nonempty s.
Proof. by destruct s. Qed.

Lemma stateFilePath_sanitized host dir h :
  stateFilePath host dir (sanitizeHandleForPath h) = stateFilePath host dir h.
Proof. unfold stateFilePath. by rewrite sanitize_idem. Qed.

Lemma candidates_sanitized host dir h legacy :
  stateReadCandidates host dir (sanitizeHandleForPath h) legacy
  = stateReadCandidates host dir h legacy.
Proof.
  unfold stateReadCandidates. rewrite stateFilePath_sanitized.
  destruct legacy; try done. rewrite !push_legacy_spec. f_equal.
  apply map_ext. intros d. apply stateFilePath_sanitized.
Qed.

(** X3. Sanitizing is idempotent, so a handle and the handle with its
    slashes and backslashes already replaced by underscores share one file:
    they resolve to the same path, and clearing one clears the other. *)
Theorem X3_sanitized_handle host handle o w :
  getAuthStateFilePath host
    (VStr (sanitizeHandleForPath (normalizeHandle handle))) o w
  = getAuthStateFilePath host handle o w
  ∧ clearAgentAuthState host
      (VStr (sanitizeHandleForPath (normalizeHandle handle))) o w
    = clearAgentAuthState host handle o w.
Proof.
  unfold getAuthStateFilePath, clearAgentAuthState.
  change (normalizeHandle (VStr (sanitizeHandleForPath (normalizeHandle handle))))
    with (trim (sanitizeHandleForPath (normalizeHandle handle))).
  rewrite trim_sanitize, normalizeHandle_trimmed, nonempty_sanitize.
  destruct (nonempty (normalizeHandle handle)); [|done]. cbn [negb].
  unfold bind. rewrite normalizeStateDir_run.
  by rewrite stateFilePath_sanitized, candidates_sanitized.
Qed.

(** ** When a save fails *)

Lemma save_run host handle state o w :
  normalizeHandle handle ≠ "" →
  saveAgentAuthState host handle state o w
  = match normalizeState state (normalizeHandle handle) w with
    | (Throw e, w1) => (Throw e, w1)
    | (Ok normalized, w1) =>
        let text :=
          JSON_stringify_nl
            (VObj (set_prop
                     (set_prop (spread (js_or normalized (VObj [])))
                        "handle" (VStr (normalizeHandle handle)))
                     "updatedAt" (VStr (toISOString (clock w1 (ticks w1)))))) in
        let dir := resolved_dir host (stateDir o) w in
        let p := stateFilePath host dir (normalizeHandle handle) in
        let w2 := add_log (FsMkdir dir) (tick w1) in
        match files w !! dir with
        | Some (Fault c) => (Throw (FsError c), w2)
        | Some (File _) => (Throw (FsError "EEXIST"), w2)
        | None =>
            let w3 := add_log (FsWrite p text) w2 in
            match files w !! p with
            | Some (Fault c) => (Throw (FsError c), w3)
            | _ =>
                match write_faults w !! p with
                | Some (c, rest) =>
                    (Throw (FsError c),
                     put_files (<[p := File rest]> (files w)) w3)
                | None => (Ok tt, put_files (<[p := File text]> (files w)) w3)
                end
            end
        end
    end.
Proof.
  intros H. apply nonempty_true in H. unfold saveAgentAuthState.
  rewrite H. cbn [negb]. unfold bind at 1.
  destruct (normalizeState state (normalizeHandle handle) w) as [[n|e] w1] eqn:N;
    [|done].
  assert (files w1 = files w ∧ env_dir w1 = env_dir w
          ∧ write_faults w1 = write_faults w) as (Ef & Ee & Ew).
  { apply normalizeState_frame in N as [->| ->]; done. }
  unfold bind at 1, nowIso, bind at 1, read_clock, ret at 1.
  unfold bind at 1. rewrite normalizeStateDir_run.
  rewrite (resolved_dir_env host _ w) by done.
  unfold fs_mkdir, fs_writeFile.
  unfold bind, emit, get_files, set_files, write_fault, throw, ret. wsimpl.
  rewrite Ef.
  destruct (files w !! resolved_dir host (stateDir o) w) as [[t|c]|];
    [done|done|].
  wsimpl. rewrite Ef.
  destruct (files w !! stateFilePath host _ _) as [[t|c]|]; [|done|];
    wsimpl; rewrite Ew;
    by destruct (write_faults w !! stateFilePath host _ _) as [[c rest]|].
Qed.

(** X4. A save that throws has changed no file but, at most, the state file
    itself.  It throws [Error("handle is required")], or the TypeError of a
    handle that cannot be converted to a string, before any effect.  When
    creating the directory fails, that was the only call made and the files
    are as they were.  When the write fails, it was the second and last
    call; every other path holds what it held, and the state file holds what
    it held, when it could not be opened, or what the failed write left of
    it: the write is not atomic, and the record stored before may be
    lost. *)
Theorem X4_failed_save host handle state o w e w' :
  saveAgentAuthState host handle state o w = (Throw e, w') →
  let nh := normalizeHandle handle in
  let dir := resolved_dir host (stateDir o) w in
  let p := stateFilePath host dir nh in
  env_dir w' = env_dir w
  ∧ (∀ q, q ≠ p → files w' !! q = files w !! q)
  ∧ ((nh = "" ∧ e = JsError "handle is required" ∧ w' = w)
     ∨ (nh ≠ "" ∧ derived_handle state nh = None ∧ e = TypeError ∧ w' = w)
     ∨ (nh ≠ "" ∧ ∃ c, e = FsError c
          ∧ log w' = log w ++ [FsMkdir dir]
          ∧ files w' = files w)
     ∨ (nh ≠ "" ∧ ∃ c text, e = FsError c
          ∧ log w' = log w ++ [FsMkdir dir; FsWrite p text]
          ∧ (files w' = files w
             ∨ ∃ rest, write_faults w !! p = Some (c, rest)
                 ∧ files w' = <[p := File rest]> (files w)))).
Proof.
  intros S nh dir p.
  destruct (decide (nh = "")) as [E|E].
  { unfold saveAgentAuthState in S. fold nh in S. rewrite E in S.
    cbn [nonempty negb] in S. injection S as <- <-.
    split; [done|]. split; [done|]. by left. }
  rewrite save_run in S by done. fold nh dir p in S.
  destruct (normalizeState state nh w) as [[n|e1] w1] eqn:N.
  - assert (files w1 = files w ∧ env_dir w1 = env_dir w ∧ log w1 = log w)
      as (Ef & Ee & El).
    { apply normalizeState_frame in N as [->| ->]; done. }
    cbn zeta in S. fold p in S.
    destruct (files w !! dir) as [[t|c]|] eqn:D;
      [| |destruct (files w !! p) as [[t|c]|] eqn:P;
          [destruct (write_faults w !! p) as [[c rest]|] eqn:F| |
           destruct (write_faults w !! p) as [[c rest]|] eqn:F]];
      try done; injection S as <- <-; wsimpl; rewrite ?Ef, ?El;
      (split; [done|]);
      (split; [intros q Hq; first [done|by rewrite lookup_insert_ne]|]);
      do 2 right.
    + left. split; [done|]. by exists "EEXIST".
    + left. split; [done|]. by exists c.
    + right. split; [done|]. eexists c, _. split; [done|].
      split; [by rewrite <- app_assoc|]. right. by exists rest.
    + right. split; [done|]. eexists c, _. split; [done|].
      split; [by rewrite <- app_assoc|]. by left.
    + right. split; [done|]. eexists c, _. split; [done|].
      split; [by rewrite <- app_assoc|]. right. by exists rest.
  - injection S as <- <-.
    destruct (normalizeState_cases state nh w)
      as [(N' & _)|[(N' & _ & _ & Hd)|(h & u & w2 & _ & _ & _ & _ & N' & _)]];
      rewrite N' in N; try done.
    injection N as <- <-. split; [done|]. split; [done|]. right. by left.
Qed.

Lemma X4_failed_save_witness :
  saveAgentAuthState posix (VStr "bob") raw_handle_object opts_d (world0 ∅)
  = (Throw TypeError, world0 ∅)
  ∧ (fst (saveAgentAuthState posix (VStr "bob") state_bob opts_d world_no_mkdir)
     = Throw (FsError "EACCES")
     ∧ files (snd (saveAgentAuthState posix (VStr "bob") state_bob opts_d
                     world_no_mkdir))
       = files world_no_mkdir)
  ∧ (fst (saveAgentAuthState posix (VStr "bob") state_bob opts_d world_disk_full)
     = Throw (FsError "ENOSPC")
     ∧ files (snd (saveAgentAuthState posix (VStr "bob") state_bob opts_d
                     world_disk_full))
       = <[ "/d/bob.json" := File (BadText "") ]> (files world_disk_full)).
Proof.
  split; [|split].
  - destruct (saveAgentAuthState posix (VStr "bob") raw_handle_object opts_d
                (world0 ∅)) as [r w'] eqn:S.
    assert (r = Throw TypeError) as ->
      by (apply (f_equal fst) in S; vm_compute in S; symmetry; exact S).
    destruct (X4_failed_save posix (VStr "bob") raw_handle_object opts_d
                (world0 ∅) _ w' S)
      as (_ & _ & [(_ & E & _)|[(_ & _ & _ & ->)|[(_ & c & E & _)
                                                 |(_ & c & t & E & _)]]]);
      done.
  - destruct (saveAgentAuthState posix (VStr "bob") state_bob opts_d
                world_no_mkdir) as [r w'] eqn:S.
    assert (r = Throw (FsError "EACCES")) as ->
      by (apply (f_equal fst) in S; vm_compute in S; symmetry; exact S).
    split; [reflexivity|]. cbn [snd].
    destruct (X4_failed_save posix (VStr "bob") state_bob opts_d
                world_no_mkdir _ w' S)
      as (_ & _ & [(E & _)|[(_ & E & _)|[(_ & c & _ & _ & Ef)
                                        |(_ & c & t & _ & L & _)]]]).
    + vm_compute in E. discriminate.
    + vm_compute in E. discriminate.
    + exact Ef.
    + apply (f_equal (λ x, log (snd x))) in S. cbn [snd] in S.
      rewrite L in S. vm_compute in S. discriminate.
  - destruct (saveAgentAuthState posix (VStr "bob") state_bob opts_d
                world_disk_full) as [r w'] eqn:S.
    assert (r = Throw (FsError "ENOSPC")) as ->
      by (apply (f_equal fst) in S; vm_compute in S; symmetry; exact S).
    split; [reflexivity|]. cbn [snd].
    destruct (X4_failed_save posix (VStr "bob") state_bob opts_d
                world_disk_full _ w' S)
      as (_ & _ & [(E & _)|[(_ & E & _)|[(_ & c & _ & L & _)
                                        |(_ & c & t & _ & _ & [Ef|Ef])]]]).
    + vm_compute in E. discriminate.
    + vm_compute in E. discriminate.
    + apply (f_equal (λ x, log (snd x))) in S. cbn [snd] in S.
      rewrite L in S. vm_compute in S. discriminate.
    + apply (f_equal (λ x, files (snd x) !! "/d/bob.json")) in S.
      cbn [snd] in S. rewrite Ef in S. vm_compute in S. discriminate.
    + destruct Ef as (rest & F & ->). vm_compute in F.
      injection F as _ <-. reflexivity.
Defined.

(** ** A load that follows a save, for any state *)

(** X6. Whatever the state, a load that follows a successful save returns a
    record with all ten fields present, under the trimmed handle of the
    call, and dated by the last clock reading the save took: neither the
    handle nor the timestamp of the state passed in is kept. *)
Theorem X6_load_after_any_save host handle state o o' w w1 w2 :
  normalizeHandle handle ≠ "" →
  saveAgentAuthState host handle state o w = (Ok tt, w1) →
  files w2 = files w1 → env_dir w2 = env_dir w1 → stateDir o' = stateDir o →
  ∃ st w3,
    loadAgentAuthState host handle o' w2 = (Ok st, w3)
    ∧ well_formed st
    ∧ get st "handle" = VStr (normalizeHandle handle)
    ∧ get st "updatedAt"
      = VStr (toISOString (clock w (Nat.pred (ticks w1))))
    ∧ files w3 = files w2.
Proof.
  intros H S Ef Ee Eo.
  eexists _, _. split; [by apply (save_then_load host handle state o o' w w1 w2)|].
  split; [|done].
  apply normalized_record_well_formed;
    [done|apply normalizeHandle_trimmed|apply truthy_iso].
Qed.

Lemma X6_load_after_any_save_witness :
  ∃ st w3,
    loadAgentAuthState posix (VStr "bob") opts_d
      (snd (saveAgentAuthState posix (VStr "bob") state_blank opts_d (world0 ∅)))
    = (Ok st, w3)
    ∧ well_formed st
    ∧ get st "handle" = VStr "bob"
    ∧ get st "updatedAt" = VStr "2023-11-14T22:13:20.000Z".
Proof.
  assert (normalizeHandle (VStr "bob") ≠ "") as H by (vm_compute; congruence).
  destruct (saveAgentAuthState posix (VStr "bob") state_blank opts_d (world0 ∅))
    as [r w1] eqn:S.
  assert (r = Ok tt) as ->
    by (apply (f_equal fst) in S; vm_compute in S; symmetry; exact S).
  assert (ticks w1 = 1%nat) as Hticks
    by (apply (f_equal (λ x, ticks (snd x))) in S; vm_compute in S;
        symmetry; exact S).
  destruct (X6_load_after_any_save posix (VStr "bob") state_blank opts_d opts_d
              (world0 ∅) w1 w1 H S eq_refl eq_refl eq_refl)
    as (st & w3 & L & Hwf & Hh & Hu & _).
  exists st, w3. split; [exact L|]. split; [exact Hwf|]. split; [exact Hh|].
  rewrite Hu, Hticks. vm_compute. reflexivity.
Defined.

Lemma normalized_record_ext ra rb h u :
  (∀ k, k ≠ "updatedAt" → get ra k = get rb k) →
  normalized_record ra h u = normalized_record rb h u.
Proof.
  intros Hk. unfold normalized_record.
  repeat match goal with
         | |- context [get ra ?k] => rewrite (Hk k) by discriminate
         end.
  done.
Qed.

Lemma normalized_record_other_fields r h ua ub k :
  k ≠ "updatedAt" →
  get (normalized_record r h ua) k = get (normalized_record r h ub) k.
Proof.
  intros Hk. apply String.eqb_neq in Hk.
  unfold normalized_record, get. cbn [assoc]. rewrite Hk. reflexivity.
Qed.

Lemma json_image_normalized state nh t :
  t ≠ "" →
  json_image (normalized_record state nh (VStr t))
  = VObj (map (λ kv, (kv.1, json_image kv.2))
            (spread (normalized_record state nh (VStr t)))).
Proof.
  intros Ht. unfold normalized_record at 1.
  rewrite json_image_obj, json_props_defined
    by (apply (normalized_record_defined state nh (VStr t)); by apply truthy_str).
  done.
Qed.

Lemma written_record_other_fields state nh ta tb k :
  ta ≠ "" → tb ≠ "" → k ≠ "updatedAt" →
  get (written_record state nh (VStr ta)) k
  = get (written_record state nh (VStr tb)) k.
Proof.
  intros Ha Hb Hk. apply String.eqb_neq in Hk.
  unfold written_record. destruct (yields_state nh state).
  - rewrite !json_image_normalized by done.
    unfold normalized_record, spread, get. cbn [map assoc fst snd].
    rewrite Hk. reflexivity.
  - unfold get. cbn [assoc]. rewrite Hk. reflexivity.
Qed.

(** X7. Saving the same state twice gives the same record but for the
    time: the loads that follow two successful saves of one state under one
    handle agree on every field except [updatedAt]. *)
Theorem X7_save_twice host handle state oa ob wa wa1 wb wb1 :
  normalizeHandle handle ≠ "" →
  saveAgentAuthState host handle state oa wa = (Ok tt, wa1) →
  saveAgentAuthState host handle state ob wb = (Ok tt, wb1) →
  ∃ sta stb wa2 wb2,
    loadAgentAuthState host handle oa wa1 = (Ok sta, wa2)
    ∧ loadAgentAuthState host handle ob wb1 = (Ok stb, wb2)
    ∧ ∀ k, k ≠ "updatedAt" → get sta k = get stb k.
Proof.
  intros H Sa Sb.
  eexists _, _, _, _.
  split; [by apply (save_then_load host handle state oa oa wa wa1 wa1)|].
  split; [by apply (save_then_load host handle state ob ob wb wb1 wb1)|].
  intros k Hk.
  rewrite (normalized_record_other_fields _ _ _
             (VStr (toISOString (clock wb (Nat.pred (ticks wb1))))) k Hk).
  f_equal. apply normalized_record_ext. intros k' Hk'.
  apply written_record_other_fields; [apply toISOString_nonempty..|done].
Qed.

Lemma X7_save_twice_witness :
  ∃ sta stb wa2 wb2,
    loadAgentAuthState posix (VStr "bob") opts_d
      (snd (saveAgentAuthState posix (VStr "bob") raw_new_old opts_d (world0 ∅)))
    = (Ok sta, wa2)
    ∧ loadAgentAuthState posix (VStr "bob") opts_d
        (snd (saveAgentAuthState posix (VStr "bob") raw_new_old opts_d
                (snd (saveAgentAuthState posix (VStr "bob") raw_new_old opts_d
                        (world0 ∅)))))
      = (Ok stb, wb2)
    ∧ get sta "apiKey" = get stb "apiKey".
Proof.
  assert (normalizeHandle (VStr "bob") ≠ "") as H by (vm_compute; congruence).
  destruct (saveAgentAuthState posix (VStr "bob") raw_new_old opts_d (world0 ∅))
    as [ra wa1] eqn:Sa.
  assert (ra = Ok tt) as ->
    by (apply (f_equal fst) in Sa; vm_compute in Sa; symmetry; exact Sa).
  cbn [snd].
  destruct (saveAgentAuthState posix (VStr "bob") raw_new_old opts_d wa1)
    as [rb wb1] eqn:Sb.
  assert (rb = Ok tt) as ->.
  { apply (f_equal snd) in Sa. cbn [snd] in Sa. subst wa1.
    apply (f_equal fst) in Sb. vm_compute in Sb. symmetry. exact Sb. }
  cbn [snd].
  destruct (X7_save_twice posix (VStr "bob") raw_new_old opts_d opts_d
              (world0 ∅) wa1 wa1 wb1 H Sa Sb)
    as (sta & stb & wa2 & wb2 & La & Lb & Hk).
  exists sta, stb, wa2, wb2. split; [exact La|]. split; [exact Lb|].
  apply Hk. discriminate.
Defined.

(** ** A state that does not normalize *)

(** X8. A state that does not normalize under the handle (a state that is
    no object, or whose own handle is empty after trimming) is saved as an
    empty record: the load that follows returns the default of every field,
    whatever else the state held. *)
Theorem X8_unusable_state_saved_empty host handle state o o' w w1 w2 :
  normalizeHandle handle ≠ "" →
  truthy state && is_object_type state = false
  ∨ derived_handle state (normalizeHandle handle) = Some "" →
  saveAgentAuthState host handle state o w = (Ok tt, w1) →
  files w2 = files w1 → env_dir w2 = env_dir w1 → stateDir o' = stateDir o →
  ∃ st w3,
    loadAgentAuthState host handle o' w2 = (Ok st, w3)
    ∧ get st "handle" = VStr (normalizeHandle handle)
    ∧ ∀ k d, (k, d) ∈ field_defaults → get st k = d.
Proof.
  intros H Hbad S Ef Ee Eo.
  assert (yields_state (normalizeHandle handle) state = false) as Hy.
  { destruct (normalizeState_cases state (normalizeHandle handle) w)
      as [(_ & Y & _)|[(_ & Y & _)|(h & u & w0 & Ho & Hh & Hne & _)]]; try done.
    destruct Hbad as [Hb|Hb]; congruence. }
  eexists _, _.
  split; [by apply (save_then_load host handle state o o' w w1 w2)|].
  split; [done|].
  unfold written_record. rewrite Hy.
  intros k d Hin. unfold field_defaults in Hin.
  repeat (apply elem_of_cons in Hin as [[= -> ->] | Hin]);
    [..|by apply elem_of_nil in Hin]; reflexivity.
Qed.

Lemma X8_unusable_state_saved_empty_witness :
  ∃ st w3,
    loadAgentAuthState posix (VStr "bob") opts_d
      (snd (saveAgentAuthState posix (VStr "bob") state_blank opts_d (world0 ∅)))
    = (Ok st, w3)
    ∧ get state_blank "apiKey" = VStr "sk-9"
    ∧ get st "apiKey" = VStr "".
Proof.
  assert (normalizeHandle (VStr "bob") ≠ "") as H by (vm_compute; congruence).
  destruct (saveAgentAuthState posix (VStr "bob") state_blank opts_d (world0 ∅))
    as [r w1] eqn:S.
  assert (r = Ok tt) as ->
    by (apply (f_equal fst) in S; vm_compute in S; symmetry; exact S).
  destruct (X8_unusable_state_saved_empty posix (VStr "bob") state_blank opts_d
              opts_d (world0 ∅) w1 w1 H) as (st & w3 & L & _ & Hd);
    [right; vm_compute; reflexivity|exact S|reflexivity..|].
  exists st, w3. split; [exact L|]. split; [reflexivity|].
  apply Hd. unfold field_defaults. apply elem_of_cons. by left.
Defined.

(** ** Clear, with load and save *)

Lemma hard_fault_inv e :
  hard_fault e = true → ∃ code, e = Some (Fault code) ∧ code ≠ "ENOENT".
Proof.
  destruct e as [[t|code]|]; try done. cbn [hard_fault].
  intros Hc%negb_true_iff%String.eqb_neq. by exists code.
Qed.

Lemma first_hard_fault (fs : gmap string Entry) (cands : list string) :
  (∀ c, c ∈ cands → hard_fault (fs !! c) = false)
  ∨ ∃ pre c post code,
      cands = pre ++ c :: post
      ∧ (∀ q, q ∈ pre → hard_fault (fs !! q) = false)
      ∧ fs !! c = Some (Fault code) ∧ code ≠ "ENOENT".
Proof.
  induction cands as [|c cands IH].
  { left. intros c Hc. by apply elem_of_nil in Hc. }
  destruct (hard_fault (fs !! c)) eqn:Hc.
  { right. apply hard_fault_inv in Hc as (code & Hc & Hne).
    exists [], c, cands, code. repeat split; [|done..].
    intros q Hq. by apply elem_of_nil in Hq. }
  destruct IH as [IH|(pre & c' & post & code & -> & Hpre & Hc' & Hne)].
  - left. intros q Hq. apply elem_of_cons in Hq as [-> | Hq]; auto.
  - right. exists (c :: pre), c', post, code. repeat split; [|done..].
    intros q Hq. apply elem_of_cons in Hq as [-> | Hq]; auto.
Qed.

Lemma clear_loop_returns cands deleted w b w' :
  clear_loop cands deleted w = (Ok b, w') →
  b = deleted || existsb (λ c, is_file (files w !! c)) cands
  ∧ (∀ c, c ∈ cands → hard_fault (files w !! c) = false)
  ∧ ∀ q, files w' !! q
         = if bool_decide (q ∈ cands) && is_file (files w !! q)
           then None else files w !! q.
Proof.
  intros L.
  destruct (first_hard_fault (files w) cands)
    as [Hok|(pre & c & post & code & -> & Hpre & Hc & Hne)].
  - destruct (clear_loop_ok cands deleted w Hok) as (w0 & L0 & _ & Hf).
    rewrite L0 in L. by injection L as <- <-.
  - destruct (clear_loop_fault pre c post code deleted w Hpre Hc Hne)
      as (w0 & L0 & _). by rewrite L0 in L.
Qed.

Lemma cleared_no_state fb (e : option Entry) :
  hard_fault e = false →
  no_state fb (if is_file e then None else e) = true.
Proof.
  destruct e as [[t|c]|]; cbn [is_file hard_fault no_state]; try done.
  by intros ?%negb_false_iff.
Qed.

(** X9. After a clear that returns, a load under the same handle and
    options finds nothing: it returns [null]. *)
Theorem X9_clear_then_load host handle o w b w1 w2 :
  clearAgentAuthState host handle o w = (Ok b, w1) →
  files w2 = files w1 → env_dir w2 = env_dir w →
  ∃ w3, loadAgentAuthState host handle o w2 = (Ok VNull, w3).
Proof.
  intros C Ef Ee.
  destruct (decide (normalizeHandle handle = "")) as [E|E].
  { unfold loadAgentAuthState. rewrite E. by eexists. }
  rewrite clear_run in C by done. rewrite load_run by done.
  rewrite (resolved_dir_env host _ w w2) by done.
  apply clear_loop_returns in C as (_ & Hok & Hf).
  apply load_loop_none. intros q Hq. rewrite Ef, Hf.
  rewrite bool_decide_eq_true_2 by done. cbn [andb].
  by apply cleared_no_state, Hok.
Qed.

Lemma X9_clear_then_load_witness :
  ∃ w3, loadAgentAuthState posix (VStr "bob") opts_a
          (snd (clearAgentAuthState posix (VStr "bob") opts_a world_clear))
        = (Ok VNull, w3).
Proof.
  destruct (clearAgentAuthState posix (VStr "bob") opts_a world_clear)
    as [r w1] eqn:C.
  assert (r = Ok true) as ->
    by (apply (f_equal fst) in C; vm_compute in C; symmetry; exact C).
  assert (env_dir w1 = env_dir world_clear) as Ee
    by (apply (f_equal (λ x, env_dir (snd x))) in C; vm_compute in C;
        symmetry; exact C).
  exact (X9_clear_then_load posix (VStr "bob") opts_a world_clear true w1 w1
           C eq_refl Ee).
Defined.

(** X10. A clear that follows a successful save under the same state
    directory, and returns, returns [true], and the state file is gone. *)
Theorem X10_clear_after_save host handle state o o' w w1 w2 b w3 :
  normalizeHandle handle ≠ "" →
  saveAgentAuthState host handle state o w = (Ok tt, w1) →
  files w2 = files w1 → env_dir w2 = env_dir w1 → stateDir o' = stateDir o →
  clearAgentAuthState host handle o' w2 = (Ok b, w3) →
  b = true
  ∧ files w3 !! stateFilePath host (resolved_dir host (stateDir o) w)
                  (normalizeHandle handle) = None.
Proof.
  intros H S Ef Ee Eo C.
  destruct (save_record _ _ _ _ _ _ H S) as (w0 & ts & _ & _ & _ & He & Hf & _).
  rewrite clear_run in C by done.
  rewrite (resolved_dir_env host _ w w2) in C by congruence. rewrite Eo in C.
  destruct (candidates_head host (resolved_dir host (stateDir o) w)
              (normalizeHandle handle) (js_or (legacyStateDirs o') (VArr [])))
    as (rest & Hc & _).
  rewrite Hc in C. apply clear_loop_returns in C as (-> & _ & Hgone).
  assert (is_file (files w2 !! stateFilePath host
                     (resolved_dir host (stateDir o) w) (normalizeHandle handle))
          = true) as Hfile by (by rewrite Ef, Hf, lookup_insert_eq).
  split.
  - cbn [existsb orb]. by rewrite Hfile.
  - rewrite Hgone, Hfile.
    by rewrite bool_decide_eq_true_2 by (apply elem_of_cons; by left).
Qed.

Lemma X10_clear_after_save_witness :
  fst (clearAgentAuthState posix (VStr "bob") opts_a
         (snd (saveAgentAuthState posix (VStr "bob") state_bob opts_d
                 (world0 ∅))))
  = Ok true.
Proof.
  assert (normalizeHandle (VStr "bob") ≠ "") as H by (vm_compute; congruence).
  destruct (saveAgentAuthState posix (VStr "bob") state_bob opts_d (world0 ∅))
    as [r w1] eqn:S.
  assert (r = Ok tt) as ->
    by (apply (f_equal fst) in S; vm_compute in S; symmetry; exact S).
  cbn [snd].
  destruct (clearAgentAuthState posix (VStr "bob") opts_a w1) as [rc w3] eqn:C.
  assert (∃ b, rc = Ok b) as [b ->].
  { apply (f_equal snd) in S. cbn [snd] in S. subst w1.
    apply (f_equal fst) in C. vm_compute in C. subst rc. by eexists. }
  destruct (X10_clear_after_save posix (VStr "bob") state_bob opts_d opts_a
              (world0 ∅) w1 w1 b w3 H S eq_refl eq_refl eq_refl C) as [-> _].
  reflexivity.
Defined.

(** ** Loads that change nothing, loads that throw *)

Lemma quiet_read p fb w :
  quiet fb (files w !! p) = true →
  ∃ r w', safeReadState p fb w = (Ok r, w')
    ∧ files w' = files w ∧ env_dir w' = env_dir w
    ∧ log w' = log w ++ [FsRead p]
    ∧ truthy r = negb (no_state fb (files w !! p))
    ∧ (truthy r = true →
       ∃ raw, files w !! p = Some (File (JsonText raw))
         ∧ normalizeState raw fb (add_log (FsRead p) w) = (Ok r, w')).
Proof.
  intros Hq. rewrite safeReadState_run. cbn zeta.
  destruct (files w !! p) as [[[raw|bad]|c]|]; cbn [quiet] in Hq; [|done| |].
  - cbn [no_state]. rewrite negb_involutive.
    destruct (normalizeState_cases raw fb (add_log (FsRead p) w))
      as [(N & -> & _)|[(_ & _ & Ho & E)|(h & u & w2 & _ & _ & _ & Hu & N & ->)]].
    + rewrite N. by eexists _, _.
    + rewrite Ho, E in Hq. done.
    + rewrite N. eexists _, _. split; [done|].
      assert (files w2 = files w ∧ env_dir w2 = env_dir w
              ∧ log w2 = log w ++ [FsRead p]) as (Ef & Ee & El).
      { destruct (or_nowIso_cases (js_or (get raw "updatedAt") (get raw "updated_at"))
                    (add_log (FsRead p) w)) as [[_ E]|[_ E]];
          rewrite E in Hu; by injection Hu as _ <-. }
      repeat split; try done. intros _. by exists raw.
  - cbn [no_state]. rewrite Hq. by eexists _, _.
  - by eexists _, _.
Qed.

Lemma load_loop_quiet cands fb w :
  (∀ c, c ∈ cands → quiet fb (files w !! c) = true) →
  ∃ r w',
    load_loop cands fb w = (Ok r, w')
    ∧ files w' = files w ∧ env_dir w' = env_dir w
    ∧ log w' = log w ++ map FsRead (read_until fb (files w) cands)
    ∧ (r = VNull ↔ ∀ c, c ∈ cands → no_state fb (files w !! c) = true)
    ∧ (r ≠ VNull →
       ∃ c raw w0, last (read_until fb (files w) cands) = Some c
         ∧ files w !! c = Some (File (JsonText raw))
         ∧ normalizeState raw fb w0 = (Ok r, w')).
Proof.
  revert w. induction cands as [|c cands IH]; intros w Hall.
  { exists VNull, w. cbn [load_loop read_until map]. rewrite app_nil_r.
    repeat split; try done. intros _ c Hc. by apply elem_of_nil in Hc. }
  destruct (quiet_read c fb w) as (r & w1 & R & Ef & Ee & El & Ht & Hraw).
  { apply Hall, elem_of_cons. by left. }
  cbn [load_loop read_until]. unfold bind. rewrite R.
  destruct (truthy r) eqn:T.
  - symmetry in Ht. apply negb_true_iff in Ht. rewrite Ht.
    exists r, w1. cbn [map]. repeat split; try done.
    + intros ->. done.
    + intros Hn. rewrite Hn in Ht; [done|]. apply elem_of_cons. by left.
    + intros _. destruct (Hraw eq_refl) as (raw & Hc & N).
      by exists c, raw, (add_log (FsRead c) w).
  - symmetry in Ht. apply negb_false_iff in Ht. rewrite Ht.
    destruct (IH w1) as (r' & w' & L & Ef' & Ee' & El' & Hnull & Hhit).
    { intros q Hq. rewrite Ef. apply Hall, elem_of_cons. by right. }
    rewrite Ef in El', Hnull, Hhit.
    exists r', w'. cbn [map]. split; [done|].
    split; [congruence|]. split; [congruence|]. split; [|split].
    + by rewrite El', El, <- app_assoc.
    + rewrite Hnull. split.
      * intros Hn q Hq. apply elem_of_cons in Hq as [-> | Hq]; auto.
      * intros Hn q Hq. apply Hn, elem_of_cons. by right.
    + intros Hr. destruct (Hhit Hr) as (q & raw & w0 & Hl & Hq & N).
      exists q, raw, w0. split; [|done].
      destruct (read_until fb (files w) cands); done.
Qed.

Lemma read_until_all fb (fs : gmap string Entry) cands :
  (∀ c, c ∈ cands → no_state fb (fs !! c) = true) →
  read_until fb fs cands = cands.
Proof.
  induction cands as [|c cands IH]; intros Hall; [done|]. cbn [read_until].
  rewrite Hall by (apply elem_of_cons; by left). f_equal. apply IH.
  intros q Hq. apply Hall, elem_of_cons. by right.
Qed.

(** X11. When every candidate is missing or holds a text that parses and
    normalizes without throwing (none is unparseable, none fails with a
    code other than ENOENT), a load changes no file, and its file system
    calls are exactly the reads of the candidates, one after the other in
    their order, up to and including the first that yields a state: no
    candidate after that one is read.  It returns [null] exactly when no
    candidate yields a state, having read them all, and otherwise what the
    last candidate read normalizes to. *)
Theorem X11_load_reads_only host handle o w :
  normalizeHandle handle ≠ "" →
  let nh := normalizeHandle handle in
  let cands :=
    stateReadCandidates host (resolved_dir host (stateDir o) w) nh
      (js_or (legacyStateDirs o) (VArr [])) in
  (∀ c, c ∈ cands → quiet nh (files w !! c) = true) →
  ∃ r w',
    loadAgentAuthState host handle o w = (Ok r, w')
    ∧ files w' = files w
    ∧ log w' = log w ++ map FsRead (read_until nh (files w) cands)
    ∧ (r = VNull ↔ ∀ c, c ∈ cands → no_state nh (files w !! c) = true)
    ∧ (r = VNull → read_until nh (files w) cands = cands)
    ∧ (r ≠ VNull →
       ∃ c raw w0, last (read_until nh (files w) cands) = Some c
         ∧ files w !! c = Some (File (JsonText raw))
         ∧ normalizeState raw nh w0 = (Ok r, w')).
Proof.
  intros H nh cands Hq. rewrite load_run by done. fold nh cands.
  destruct (load_loop_quiet cands nh w Hq)
    as (r & w' & L & Ef & _ & El & Hnull & Hhit).
  exists r, w'. split; [done|]. split; [done|]. split; [done|].
  split; [exact Hnull|]. split; [|exact Hhit].
  intros Hr. by apply read_until_all, Hnull.
Qed.

Lemma X11_load_reads_only_witness :
  ∃ r w',
    loadAgentAuthState posix (VStr "bob") opts_ab world_two_records = (Ok r, w')
    ∧ files w' = files world_two_records
    ∧ log w' = [FsRead "/d/bob.json"; FsRead "/a/bob.json"]
    ∧ r ≠ VNull.
Proof.
  assert (normalizeHandle (VStr "bob") ≠ "") as H by (vm_compute; congruence).
  destruct (X11_load_reads_only posix (VStr "bob") opts_ab world_two_records H)
    as (r & w' & L & Ef & El & Hnull & _).
  - intros c Hc. vm_compute in Hc.
    repeat (apply elem_of_cons in Hc as [-> | Hc]);
      [..|by apply elem_of_nil in Hc]; vm_compute; reflexivity.
  - exists r, w'. split; [exact L|]. split; [exact Ef|]. split; [exact El|].
    intros Hr. destruct Hnull as [Hn _].
    assert (no_state (normalizeHandle (VStr "bob"))
              (files world_two_records !! "/a/bob.json") = true) as Ha.
    { apply (Hn Hr). vm_compute.
      apply elem_of_cons. right. apply elem_of_cons. by left. }
    vm_compute in Ha. discriminate.
Defined.

Lemma quarantined_fault_kept p w c code :
  files w !! c = Some (Fault code) →
  files (quarantined p w) !! c = Some (Fault code).
Proof.
  intros Hc. unfold quarantined.
  destruct (files w !! p) as [[t|c']|] eqn:P; wsimpl; try done.
  assert (c ≠ p) as Hp by (intros ->; congruence).
  destruct (files w !! backupPath p (clock w (ticks w))) as [[t'|c']|] eqn:B;
    wsimpl; try done;
    (rewrite lookup_insert_ne by (intros <-; congruence));
    by rewrite lookup_delete_ne.
Qed.

Lemma safeReadState_fault_kept p fb w r w' c code :
  safeReadState p fb w = (r, w') →
  files w !! c = Some (Fault code) →
  files w' !! c = Some (Fault code).
Proof.
  rewrite safeReadState_run. cbn zeta. intros R Hc.
  destruct (files w !! p) as [[[raw|bad]|c']|].
  - destruct (normalizeState raw fb (add_log (FsRead p) w)) as [[st|e] w2] eqn:N;
      injection R as <- <-.
    + apply normalizeState_frame in N as [-> | ->]; done.
    + apply quarantined_fault_kept.
      apply normalizeState_frame in N as [-> | ->]; done.
  - injection R as <- <-. by apply quarantined_fault_kept.
  - destruct (String.eqb c' "ENOENT"); by injection R as <- <-.
  - by injection R as <- <-.
Qed.

Lemma load_loop_fault pre c post fb w code :
  (∀ q, q ∈ pre → no_state fb (files w !! q) = true) →
  files w !! c = Some (Fault code) → code ≠ "ENOENT" →
  ∃ w1 w',
    (∀ rest, load_loop (pre ++ rest) fb w = load_loop rest fb w1)
    ∧ load_loop (pre ++ c :: post) fb w = (Throw (FsError code), w')
    ∧ log w' = log w1 ++ [FsRead c] ∧ files w' = files w1.
Proof.
  intros Hpre Hc Hne. revert w Hpre Hc.
  induction pre as [|q pre IH]; intros w Hpre Hc.
  - exists w. eexists. split; [done|].
    cbn [app load_loop]. unfold bind. rewrite safeReadState_run, Hc.
    cbn zeta. apply String.eqb_neq in Hne. rewrite Hne. done.
  - destruct (safeReadState_no_state q fb w) as (w0 & R & Hinv & _).
    { apply Hpre, elem_of_cons. by left. }
    destruct (IH w0) as (w1 & w' & Hskip & L & El & Ef).
    + intros q' Hq'. apply Hinv, Hpre, elem_of_cons. by right.
    + by eapply safeReadState_fault_kept.
    + exists w1, w'. split; [|split; [|done]].
      * intros rest. cbn [app load_loop]. unfold bind. rewrite R.
        cbn [truthy]. apply Hskip.
      * cbn [app load_loop]. unfold bind. rewrite R. cbn [truthy]. exact L.
Qed.

(** X12. A load throws what a read throws: when the candidates before it
    yield nothing and a candidate fails with a code other than ENOENT, the
    load throws that error, and no later candidate is read. *)
Theorem X12_load_propagates host handle o w pre c post code :
  normalizeHandle handle ≠ "" →
  let nh := normalizeHandle handle in
  stateReadCandidates host (resolved_dir host (stateDir o) w) nh
    (js_or (legacyStateDirs o) (VArr [])) = pre ++ c :: post →
  (∀ q, q ∈ pre → no_state nh (files w !! q) = true) →
  files w !! c = Some (Fault code) → code ≠ "ENOENT" →
  ∃ w1 w',
    loadAgentAuthState host handle o w = (Throw (FsError code), w')
    ∧ load_loop pre nh w = (Ok VNull, w1)
    ∧ log w' = log w1 ++ [FsRead c] ∧ files w' = files w1.
Proof.
  intros H nh Hc Hpre Hf Hne. rewrite load_run by done. fold nh. rewrite Hc.
  destruct (load_loop_fault pre c post nh w code Hpre Hf Hne)
    as (w1 & w' & Hskip & L & El & Ef).
  exists w1, w'. split; [exact L|]. split; [|done].
  specialize (Hskip []). by rewrite app_nil_r in Hskip.
Qed.

Lemma X12_load_propagates_witness :
  ∃ w', loadAgentAuthState posix (VStr "bob") opts_a world_unreadable
        = (Throw (FsError "EACCES"), w')
    ∧ log w' = [FsRead "/d/bob.json"].
Proof.
  assert (normalizeHandle (VStr "bob") ≠ "") as H by (vm_compute; congruence).
  destruct (X12_load_propagates posix (VStr "bob") opts_a world_unreadable
              [] "/d/bob.json" ["/a/bob.json"] "EACCES" H)
    as (w1 & w' & L & L1 & El & _).
  - vm_compute. reflexivity.
  - intros q Hq. by apply elem_of_nil in Hq.
  - vm_compute. reflexivity.
  - discriminate.
  - exists w'. split; [exact L|]. rewrite El.
    cbn [load_loop] in L1. injection L1 as <-. reflexivity.
Defined.

(** ** A content that parses and cannot be normalized *)



(** ** What is stored, and under which handle it comes back *)

Lemma load_stored_handle host handle o w rec hs t :
  normalizeHandle handle ≠ "" →
  let nh := normalizeHandle handle in
  let p := stateFilePath host (resolved_dir host (stateDir o) w) nh in
  files w !! p = Some (File (JsonText rec)) →
  truthy rec && is_object_type rec = true →
  get rec "handle" = VStr hs → hs ≠ "" → trim hs = hs →
  get rec "updatedAt" = VStr t → t ≠ "" →
  loadAgentAuthState host handle o w
  = (Ok (normalized_record rec hs (VStr t)), add_log (FsRead p) w).
Proof.
  intros H nh p Hp Ho Hh Hne Htrim Hu Ht. rewrite load_run by done. fold nh.
  destruct (candidates_head host (resolved_dir host (stateDir o) w) nh
              (js_or (legacyStateDirs o) (VArr []))) as (rest & -> & _).
  fold p. cbn [load_loop]. unfold bind. rewrite safeReadState_run, Hp.
  cbn zeta.
  assert (derived_handle rec nh = Some hs) as Hd
    by (rewrite (derived_handle_stored rec nh hs) by done; by rewrite Htrim).
  destruct (normalizeState_cases rec nh (add_log (FsRead p) w))
    as [(_ & _ & [E|E])|[(_ & _ & _ & E)|(h' & u & w2 & _ & Hh' & _ & Hu' & -> & _)]];
    try congruence.
  assert (h' = hs) as -> by congruence.
  unfold js_or in Hu'. rewrite Hu, truthy_str in Hu' by done.
  unfold or_nowIso in Hu'. rewrite truthy_str in Hu' by done.
  injection Hu' as <- <-. done.
Qed.

(** X14. Two handles that sanitize to the same file name read each other's
    state: after a save under a handle, a load under that handle with its
    slashes and backslashes replaced by underscores returns the record that
    was saved, under the handle of the save and not under the handle of the
    load. *)
Theorem X14_colliding_handles host handle state o o' w w1 w2 :
  normalizeHandle handle ≠ "" →
  saveAgentAuthState host handle state o w = (Ok tt, w1) →
  files w2 = files w1 → env_dir w2 = env_dir w1 → stateDir o' = stateDir o →
  ∃ st w3,
    loadAgentAuthState host
      (VStr (sanitizeHandleForPath (normalizeHandle handle))) o' w2
    = (Ok st, w3)
    ∧ get st "handle" = VStr (normalizeHandle handle)
    ∧ ∀ st0 w0,
        loadAgentAuthState host handle o' w2 = (Ok st0, w0) → st = st0.
Proof.
  intros H S Ef Ee Eo.
  set (nh := normalizeHandle handle) in *.
  set (t := toISOString (clock w (Nat.pred (ticks w1)))).
  set (p := stateFilePath host (resolved_dir host (stateDir o) w) nh).
  pose proof (save_then_load host handle state o o' w w1 w2 H S Ef Ee Eo) as L0.
  cbn zeta in L0. fold nh t p in L0.
  destruct (save_record _ _ _ _ _ _ H S) as (w0 & ts & _ & -> & Ht & He & Hf & _).
  fold nh p in Hf.
  assert (Nat.pred (ticks w1) = ticks w0) as Hn by (by rewrite Ht).
  rewrite <- Hn in Hf. fold t in Hf. fold (written_record state nh (VStr t)) in Hf.
  destruct (written_record_stored state nh t (toISOString_nonempty _))
    as (Ho & Hh & Hu).
  assert (normalizeHandle (VStr (sanitizeHandleForPath nh))
          = sanitizeHandleForPath nh) as Hn'.
  { cbn [normalizeHandle]. rewrite trim_sanitize. f_equal.
    apply normalizeHandle_trimmed. }
  assert (normalizeHandle (VStr (sanitizeHandleForPath nh)) ≠ "") as H'.
  { rewrite Hn'. apply nonempty_true. rewrite nonempty_sanitize.
    by apply nonempty_true. }
  assert (stateFilePath host (resolved_dir host (stateDir o') w2)
            (normalizeHandle (VStr (sanitizeHandleForPath nh))) = p) as Hp.
  { rewrite Hn', stateFilePath_sanitized. unfold p. rewrite Eo. f_equal.
    apply resolved_dir_env. congruence. }
  eexists _, _. split; [|split].
  - apply (load_stored_handle host _ o' w2
             (written_record state nh (VStr t)) nh t H'); try done.
    + rewrite Hp, Ef, Hf. apply lookup_insert_eq.
    + apply normalizeHandle_trimmed.
    + apply toISOString_nonempty.
  - done.
  - intros st0 w0' L. rewrite L0 in L. by injection L.
Qed.

Lemma X14_colliding_handles_witness :
  ∃ st w3,
    loadAgentAuthState posix (VStr "a_b") opts_d
      (snd (saveAgentAuthState posix (VStr "a/b") state_bob opts_d (world0 ∅)))
    = (Ok st, w3)
    ∧ get st "handle" = VStr "a/b".
Proof.
  assert (normalizeHandle (VStr "a/b") ≠ "") as H by (vm_compute; congruence).
  destruct (saveAgentAuthState posix (VStr "a/b") state_bob opts_d (world0 ∅))
    as [r w1] eqn:S.
  assert (r = Ok tt) as ->
    by (apply (f_equal fst) in S; vm_compute in S; symmetry; exact S).
  destruct (X14_colliding_handles posix (VStr "a/b") state_bob opts_d opts_d
              (world0 ∅) w1 w1 H S eq_refl eq_refl eq_refl)
    as (st & w3 & L & Hh & _).
  exists st, w3. split; [exact L|exact Hh].
Defined.



